(** * A shallow embedding of Arrow's Azure filesystem adapter

    Source: [cpp/src/arrow/filesystem/azurefs.cc].

    The development follows the translation unit top-down: the status
    vocabulary, the [AzureOptions] configuration, the [AzurePath] address
    model, the [ObjectInputFile] random-access handle over a blob client,
    and the [AzureFileSystem::Impl] facade that opens handles.  Definitions
    come first, theorems afterwards. *)

From Stdlib Require Import ZArith List String Ascii Bool Lia DecimalString.
Import ListNotations.

Local Open Scope string_scope.
Local Open Scope Z_scope.

(* ===================================================================== *)
(** * Machine integers *)

(** [int64_t] values live in [Z]; arithmetic results are reduced to the
    signed 64-bit window. *)
Definition int64_min : Z := - 2 ^ 63.
Definition int64_max : Z := 2 ^ 63 - 1.

Definition in_int64 (z : Z) : Prop := int64_min <= z <= int64_max.

Definition wrap64 (z : Z) : Z := (z + 2 ^ 63) mod 2 ^ 64 - 2 ^ 63.

Definition sub64 (a b : Z) : Z := wrap64 (a - b).
Definition add64 (a b : Z) : Z := wrap64 (a + b).

(** [std::to_string(int64_t)]. *)
Definition to_string (z : Z) : string := NilZero.string_of_int (Z.to_int z).

(* ===================================================================== *)
(** * std::string primitives used by the translation unit *)

(** [s.find_first_of(c)]; [None] stands for [std::string::npos]. *)
Fixpoint find_first_of (s : string) (c : ascii) : option nat :=
  match s with
  | EmptyString => None
  | String a rest =>
      if Ascii.eqb a c then Some O
      else match find_first_of rest c with
           | Some i => Some (S i)
           | None => None
           end
  end.

(** [s.substr(pos, count)] and [s.substr(pos)]. *)
Definition substr (s : string) (pos count : nat) : string :=
  String.substring pos count s.

Definition substr_from (s : string) (pos : nat) : string :=
  String.substring pos (String.length s) s.

(** [s.empty()]. *)
Definition str_empty (s : string) : bool :=
  match s with
  | EmptyString => true
  | String _ _ => false
  end.

(* ===================================================================== *)
(** * Status and Result *)

(** Modelled from the spec: [arrow::Status] (arrow/status.h is not part of
    the sources at hand).  One constructor per kind of the error taxonomy;
    the variadic factories [Status::Invalid(a, b, ...)] and
    [Status::IOError(a, b, ...)] concatenate their arguments into the
    message, which is what the argument of [Invalid] and [IOError] holds.
    The two filesystem kinds carry the path they were raised for. *)
Inductive Status : Type :=
| OK
| Invalid (msg : string)
| IOError (msg : string)
| NotImplemented (msg : string)
| PathNotFoundError (path : string)
| NotAFileError (path : string).

Definition ok (st : Status) : bool :=
  match st with
  | OK => true
  | _ => false
  end.

(** [Status::message()]. *)
Definition message (st : Status) : string :=
  match st with
  | OK => ""
  | Invalid m | IOError m | NotImplemented m => m
  | PathNotFoundError p => "Path does not exist '" ++ p ++ "'"
  | NotAFileError p => "Not a regular file: '" ++ p ++ "'"
  end.

(** [arrow::Result<T>]: a value or a non-OK status. *)
Inductive Result (A : Type) : Type :=
| Ok (a : A)
| Err (st : Status).
Arguments Ok {A} a.
Arguments Err {A} st.

(** Pure code: [RETURN_NOT_OK] and [ARROW_ASSIGN_OR_RAISE]. *)
Definition return_not_ok {A} (st : Status) (k : Result A) : Result A :=
  match st with
  | OK => k
  | e => Err e
  end.

Definition assign_or_raise {A B} (r : Result A) (k : A -> Result B) : Result B :=
  match r with
  | Ok a => k a
  | Err e => Err e
  end.

(* ===================================================================== *)
(** * Path utilities ([arrow::fs::internal]) *)

Module internal.

(** [kSep]. *)
Definition kSep : ascii := "/"%char.

Definition is_alpha (c : ascii) : bool :=
  let n := nat_of_ascii c in
  ((65 <=? n) && (n <=? 90) || (97 <=? n) && (n <=? 122))%nat.

Definition is_scheme_char (c : ascii) : bool :=
  let n := nat_of_ascii c in
  (is_alpha c || (48 <=? n) && (n <=? 57)
   || Ascii.eqb c "+" || Ascii.eqb c "-" || Ascii.eqb c ".")%nat%char.

(** Scans the remainder of a scheme up to its colon. *)
Fixpoint scheme_tail (s : string) : bool :=
  match s with
  | EmptyString => false
  | String c rest =>
      if Ascii.eqb c ":" then true
      else if is_scheme_char c then scheme_tail rest
      else false
  end.

(** Modelled from the spec: [internal::IsLikelyUri] (path_util.h is not
    part of the sources at hand).  The spec rejects a string that is
    "itself a URI-looking string (scheme present)": a scheme is a letter
    followed by letters, digits, '+', '-' or '.', closed by a colon. *)
Definition IsLikelyUri (s : string) : bool :=
  match s with
  | EmptyString => false
  | String c rest => is_alpha c && scheme_tail rest
  end.

(** Modelled from the spec: [internal::RemoveTrailingSlash] (path_util.h
    is not part of the sources at hand).  "Trailing separators stripped":
    every separator at the end of the string is dropped. *)
Fixpoint RemoveTrailingSlash (s : string) : string :=
  match s with
  | EmptyString => EmptyString
  | String c rest =>
      match RemoveTrailingSlash rest with
      | EmptyString =>
          if Ascii.eqb c kSep then EmptyString else String c EmptyString
      | kept => String c kept
      end
  end.

(** The pieces between separators; never an empty list. *)
Fixpoint split_on_sep (s : string) : list string :=
  match s with
  | EmptyString => [EmptyString]
  | String c rest =>
      if Ascii.eqb c kSep then EmptyString :: split_on_sep rest
      else match split_on_sep rest with
           | [] => [String c EmptyString]
           | p :: ps => String c p :: ps
           end
  end.

(** Modelled from the spec: [internal::SplitAbstractPath] (path_util.h is
    not part of the sources at hand).  "relative_path split on separator",
    "split into segments on every separator"; an empty path has no
    segments. *)
Definition SplitAbstractPath (path : string) : list string :=
  if str_empty path then [] else split_on_sep path.

(** Modelled from the spec: [internal::JoinAbstractPath] (path_util.h is
    not part of the sources at hand).  "rejoins remaining segments": the
    segments with one separator between neighbours. *)
Definition JoinAbstractPath (parts : list string) : string :=
  String.concat (String kSep EmptyString) parts.

Definition reserved_part (part : string) : bool :=
  String.eqb part "." || String.eqb part "..".

(** Modelled from the spec: [internal::ValidateAbstractPathParts]
    (path_util.h is not part of the sources at hand).  "no empty
    component, no reserved relative components": a segment may not be
    empty, [.] or [..]. *)
Fixpoint ValidateAbstractPathParts (parts : list string) : Status :=
  match parts with
  | [] => OK
  | part :: rest =>
      if str_empty part then Invalid "Empty path component"
      else if reserved_part part
           then Invalid ("Reserved path component '" ++ part ++ "'")
      else ValidateAbstractPathParts rest
  end.

(** Last character of a string, if any ([s.back()]). *)
Fixpoint back (s : string) : option ascii :=
  match s with
  | EmptyString => None
  | String c EmptyString => Some c
  | String _ rest => back rest
  end.

Definition HasTrailingSlash (s : string) : bool :=
  match back s with
  | Some c => Ascii.eqb c kSep
  | None => false
  end.

(** Modelled from the spec: [internal::PathNotFound] and
    [internal::NotAFile] (util_internal.h is not part of the sources at
    hand): the "path-not-found" and "not-a-file" errors, each carrying the
    path it is raised for. *)
Definition PathNotFound (path : string) : Status := PathNotFoundError path.
Definition NotAFile (path : string) : Status := NotAFileError path.

(** Modelled from the spec: [internal::AssertNoTrailingSlash]
    (path_util.h is not part of the sources at hand).  A file target may
    not end in a separator; such a path is not a file. *)
Definition AssertNoTrailingSlash (s : string) : Status :=
  if HasTrailingSlash s then NotAFile s else OK.

End internal.

(** [kSep] as a one-character string. *)
Definition sep : string := String internal.kSep EmptyString.

(* ===================================================================== *)
(** * AzureOptions *)

(** Modelled from the spec: [AzureCredentialsKind] and [AzureBackend]
    (azurefs.h is not part of the sources at hand).  The credential kinds
    are the four variants the spec lists (shared-key, default-identity,
    managed-identity, service-principal); the source names the shared-key
    kind [StorageCredentials] and the emulator backend [Azurite]. *)
Inductive AzureCredentialsKind : Type :=
| StorageCredentials
| DefaultCredentials
| ManagedIdentity
| ServicePrincipal.

Inductive AzureBackend : Type :=
| Azure
| Azurite.

Definition AzureCredentialsKind_eqb (a b : AzureCredentialsKind) : bool :=
  match a, b with
  | StorageCredentials, StorageCredentials
  | DefaultCredentials, DefaultCredentials
  | ManagedIdentity, ManagedIdentity
  | ServicePrincipal, ServicePrincipal => true
  | _, _ => false
  end.

(** [Azure::Storage::StorageSharedKeyCredential(account_name, account_key)]:
    the secret material behind the credential handle. *)
Record StorageSharedKeyCredential : Type := {
  AccountName : string;
  AccountKey : string
}.

Module AzureOptions.

(** Modelled from the spec: the fields of [struct AzureOptions] (azurefs.h
    is not part of the sources at hand), as the member functions below use
    them: two base URLs, the backend, the credential-kind discriminant and
    the credential handle (a [shared_ptr], [None] when null). *)
Record t : Type := {
  account_dfs_url : string;
  account_blob_url : string;
  backend : AzureBackend;
  credentials_kind : AzureCredentialsKind;
  storage_credentials_provider : option StorageSharedKeyCredential
}.

Definition Equals (self other : t) : bool :=
  String.eqb (account_dfs_url self) (account_dfs_url other)
  && String.eqb (account_blob_url self) (account_blob_url other)
  && AzureCredentialsKind_eqb (credentials_kind self) (credentials_kind other).

(** Mutates [*this]; the new options are returned next to the status. *)
Definition ConfigureAccountKeyCredentials
    (account_name account_key : string) (self : t) : Status * t :=
  let urls :=
    match backend self with
    | Azurite =>
        ("http://127.0.0.1:10000/" ++ account_name ++ "/",
         "http://127.0.0.1:10000/" ++ account_name ++ "/")
    | Azure =>
        ("https://" ++ account_name ++ ".dfs.core.windows.net/",
         "https://" ++ account_name ++ ".blob.core.windows.net/")
    end in
  (OK,
   {| account_dfs_url := fst urls;
      account_blob_url := snd urls;
      backend := backend self;
      credentials_kind := StorageCredentials;
      storage_credentials_provider :=
        Some {| AccountName := account_name; AccountKey := account_key |} |}).

End AzureOptions.

(* ===================================================================== *)
(** * AzurePath *)

Module AzurePath.

Record t : Type := {
  full_path : string;
  container : string;
  path_to_file : string;
  path_to_file_parts : list string
}.

Definition Validate (path : t) : Status :=
  let status := internal.ValidateAbstractPathParts (path_to_file_parts path) in
  if negb (ok status)
  then Invalid (message status ++ " in path " ++ full_path path)
  else status.

Definition FromString (s : string) : Result t :=
  if internal.IsLikelyUri s then
    Err (Invalid
           ("Expected an Azure object path of the form 'container/path...', got a URI: '"
              ++ s ++ "'"))
  else
    let src := internal.RemoveTrailingSlash s in
    match find_first_of src internal.kSep with
    | Some O =>
        Err (Invalid ("Path cannot start with a separator ('" ++ s ++ "')"))
    | None =>
        Ok {| full_path := src;
              container := src;
              path_to_file := "";
              path_to_file_parts := [] |}
    | Some first_sep =>
        let path_to_file := substr_from src (first_sep + 1) in
        let path :=
          {| full_path := src;
             container := substr src 0 first_sep;
             path_to_file := path_to_file;
             path_to_file_parts := internal.SplitAbstractPath path_to_file |} in
        return_not_ok (Validate path) (Ok path)
    end.

Definition has_parent (self : t) : bool := negb (str_empty (path_to_file self)).

Definition empty (self : t) : bool :=
  str_empty (container self) && str_empty (path_to_file self).

(** [DCHECK(has_parent())] is a precondition, not a check of release
    builds; [pop_back] is [removelast]. *)
Definition parent (self : t) : t :=
  let parts := removelast (path_to_file_parts self) in
  let joined := internal.JoinAbstractPath parts in
  {| full_path :=
       if str_empty joined then container self
       else container self ++ String internal.kSep EmptyString ++ joined;
     container := container self;
     path_to_file := joined;
     path_to_file_parts := parts |}.

(** [operator==]. *)
Definition eqb (self other : t) : bool :=
  String.eqb (container self) (container other)
  && String.eqb (path_to_file self) (path_to_file other).

End AzurePath.

Definition PathNotFound (path : AzurePath.t) : Status :=
  internal.PathNotFound (AzurePath.full_path path).

Definition NotAFile (path : AzurePath.t) : Status :=
  internal.NotAFile (AzurePath.full_path path).

Definition ValidateFilePath (path : AzurePath.t) : Status :=
  if str_empty (AzurePath.container path) then PathNotFound path
  else if str_empty (AzurePath.path_to_file path) then NotAFile path
  else OK.

(* ===================================================================== *)
(** * The store client (Azure SDK surface) *)

Definition byte : Type := Byte.byte.

(** [Azure::Core::Http::HttpStatusCode], by its numeric value. *)
Definition HttpStatusCode : Type := Z.
Definition HttpStatusCode_NotFound : HttpStatusCode := 404.

(** [Azure::Storage::StorageException]: the status code and [what()]. *)
Record StorageException : Type := {
  StatusCode : HttpStatusCode;
  what : string
}.

(** The part of [GetProperties()]'s value the handle reads. *)
Record BlobProperties : Type := {
  BlobSize : Z;
  Metadata : list (string * string)
}.

(** The part of [DownloadTo()]'s value the handle reads,
    [.Value.ContentRange.Length.Value()], and the bytes the call stored
    into the destination. *)
Record DownloadBlobToResult : Type := {
  ContentRange_Length : Z;
  Body : list byte
}.

(** One request sent to the store. *)
Inductive StoreCall : Type :=
| GetPropertiesCall (url : string)
| DownloadToCall (url : string) (offset length : Z).

(** [Azure::Storage::Blobs::BlobClient].  The store is outside the program:
    what it answers may depend on everything sent so far, so each request
    is answered as a function of the requests made before it.  A thrown
    [StorageException] is the left summand.  [GetUrl] is local. *)
Record BlobClient : Type := {
  GetUrl : string;
  GetProperties : list StoreCall -> StorageException + BlobProperties;
  DownloadTo : list StoreCall -> Z -> Z -> StorageException + DownloadBlobToResult
}.

Record BlobContainerClient : Type := {
  GetBlobClient : string -> BlobClient
}.

Record BlobServiceClient : Type := {
  GetBlobContainerClient : string -> BlobContainerClient
}.

(** [arrow::KeyValueMetadata]: keys and values in insertion order. *)
Definition KeyValueMetadata : Type := list (string * string).

Definition Append (md : KeyValueMetadata) (key value : string) : KeyValueMetadata :=
  (md ++ [(key, value)])%list.

Definition ErrorToStatus (prefix : string) (exception : StorageException) : Status :=
  IOError (prefix ++ " Azure Error: " ++ what exception).

Definition GetObjectMetadata (result : list (string * string)) : KeyValueMetadata :=
  fold_left (fun md prop => Append md (fst prop) (snd prop)) result [].

(* ===================================================================== *)
(** * Stateful code *)

(** A member function runs on its object [S] and on the list of requests
    sent to the store so far.  It either returns an [arrow::Result] with the
    object and the requests as they are then, or has no defined behaviour
    ([None]: a null [shared_ptr] was dereferenced).  Mutations made before
    an error status is returned persist, as in the source. *)
Definition M (S A : Type) : Type :=
  S -> list StoreCall -> option (Result A * S * list StoreCall).

Definition ret {S A} (a : A) : M S A :=
  fun self net => Some (Ok a, self, net).

Definition raise {S A} (st : Status) : M S A :=
  fun self net => Some (Err st, self, net).

Definition bind {S A B} (m : M S A) (k : A -> M S B) : M S B :=
  fun self net =>
    match m self net with
    | Some (Ok a, self', net') => k a self' net'
    | Some (Err e, self', net') => Some (Err e, self', net')
    | None => None
    end.

(** [RETURN_NOT_OK(expr)] for a [const] member returning a [Status]. *)
Definition check {S} (st : S -> Status) : M S unit :=
  fun self net =>
    match st self with
    | OK => Some (Ok tt, self, net)
    | e => Some (Err e, self, net)
    end.

(** [ARROW_ASSIGN_OR_RAISE] of a pure [Result]. *)
Definition lift {S A} (r : Result A) : M S A :=
  fun self net => Some (r, self, net).

Definition gets {S A} (f : S -> A) : M S A :=
  fun self net => Some (Ok (f self), self, net).

Definition modify {S} (f : S -> S) : M S unit :=
  fun self net => Some (Ok tt, f self, net).

Declare Scope arrow_scope.
Delimit Scope arrow_scope with arrow.
Notation "x <- m ;; k" := (bind m (fun x => k))
  (at level 61, m at next level, right associativity) : arrow_scope.
Notation "m ;; k" := (bind m (fun _ => k))
  (at level 61, right associativity) : arrow_scope.

(* ===================================================================== *)
(** * Buffers *)

(** Modelled from the spec: [AllocateResizableBuffer] and
    [ResizableBuffer::Resize] (arrow/buffer.h is not part of the sources at
    hand).  A buffer is its bytes, [size()] their number.  The buffer is
    allocated "of the clamped size up front" and later resized "down to the
    actual bytes delivered"; a negative size is refused.  Fresh bytes are
    zero and memory is assumed not to run out. *)
Definition Buffer : Type := list byte.

Definition size (b : Buffer) : Z := Z.of_nat (List.length b).

Definition Resize (new_size : Z) (b : Buffer) : Result Buffer :=
  if new_size <? 0
  then Err (Invalid ("Negative buffer resize: " ++ to_string new_size))
  else
    let n := Z.to_nat new_size in
    Ok (firstn n b ++ repeat Byte.x00 (n - List.length b))%list.

Definition AllocateResizableBuffer (nbytes : Z) : Result Buffer :=
  Resize nbytes [].

(** What [out] holds after a store call wrote [body] to its start. *)
Definition store_into (body : list byte) (out : Buffer) : Buffer :=
  (body ++ skipn (List.length body) out)%list.

(* ===================================================================== *)
(** * ObjectInputFile *)

Definition kNoSize : Z := -1.

Module ObjectInputFile.

(** The private members.  [io_context_] only supplies the memory pool of
    [AllocateResizableBuffer] and is left out. *)
Record t : Type := {
  blob_client_ : option BlobClient;
  path_ : AzurePath.t;
  closed_ : bool;
  pos_ : Z;
  content_length_ : Z;
  metadata_ : option KeyValueMetadata
}.

(** The constructor; [size] defaults to [kNoSize]. *)
Definition make (blob_client : BlobClient) (path : AzurePath.t) (size : Z) : t :=
  {| blob_client_ := Some blob_client;
     path_ := path;
     closed_ := false;
     pos_ := 0;
     content_length_ := size;
     metadata_ := None |}.

Definition set_blob_client_ (v : option BlobClient) (self : t) : t :=
  {| blob_client_ := v; path_ := path_ self; closed_ := closed_ self;
     pos_ := pos_ self; content_length_ := content_length_ self;
     metadata_ := metadata_ self |}.

Definition set_closed_ (v : bool) (self : t) : t :=
  {| blob_client_ := blob_client_ self; path_ := path_ self; closed_ := v;
     pos_ := pos_ self; content_length_ := content_length_ self;
     metadata_ := metadata_ self |}.

Definition set_pos_ (v : Z) (self : t) : t :=
  {| blob_client_ := blob_client_ self; path_ := path_ self;
     closed_ := closed_ self; pos_ := v;
     content_length_ := content_length_ self; metadata_ := metadata_ self |}.

Definition set_content_length_ (v : Z) (self : t) : t :=
  {| blob_client_ := blob_client_ self; path_ := path_ self;
     closed_ := closed_ self; pos_ := pos_ self; content_length_ := v;
     metadata_ := metadata_ self |}.

Definition set_metadata_ (v : option KeyValueMetadata) (self : t) : t :=
  {| blob_client_ := blob_client_ self; path_ := path_ self;
     closed_ := closed_ self; pos_ := pos_ self;
     content_length_ := content_length_ self; metadata_ := v |}.

Local Open Scope arrow_scope.

(** [DCHECK_GE(content_length_, 0)] in the known-size branch is a
    precondition of that branch, not a check of release builds: the
    theorems that state what [Init] returns for a known size carry
    [0 <= content_length_] as a hypothesis. *)
Definition Init : M t unit :=
  fun self net =>
    if negb (content_length_ self =? kNoSize) then Some (Ok tt, self, net)
    else
      match blob_client_ self with
      | None => None
      | Some client =>
          let net' := (net ++ [GetPropertiesCall (GetUrl client)])%list in
          match GetProperties client net with
          | inr properties =>
              Some (Ok tt,
                    set_metadata_ (Some (GetObjectMetadata (Metadata properties)))
                      (set_content_length_ (BlobSize properties) self),
                    net')
          | inl exception =>
              if StatusCode exception =? HttpStatusCode_NotFound
              then Some (Err (PathNotFound (path_ self)), self, net')
              else Some (Err (ErrorToStatus
                                ("When fetching properties for '"
                                   ++ GetUrl client ++ "': ") exception),
                         self, net')
          end
      end.

Definition CheckClosed (action : string) (self : t) : Status :=
  if closed_ self then Invalid ("Cannot " ++ action ++ " on closed file.")
  else OK.

Definition CheckPosition (position : Z) (action : string) (self : t) : Status :=
  if position <? 0
  then Invalid ("Cannot " ++ action ++ " from negative position")
  else if position >? content_length_ self
  then IOError ("Cannot " ++ action ++ " past end of file")
  else OK.

Definition ReadMetadata : M t (option KeyValueMetadata) :=
  gets metadata_.

(** The future is already finished when it is returned: its value. *)
Definition ReadMetadataAsync : M t (option KeyValueMetadata) :=
  gets metadata_.

Definition Close : M t unit :=
  modify (set_blob_client_ None) ;;
  modify (set_closed_ true) ;;
  ret tt.

Definition closed (self : t) : bool := closed_ self.

Definition Tell : M t Z :=
  check (CheckClosed "tell") ;;
  gets pos_.

Definition GetSize : M t Z :=
  check (CheckClosed "size") ;;
  gets content_length_.

Definition Seek (position : Z) : M t unit :=
  check (CheckClosed "seek") ;;
  check (CheckPosition position "seek") ;;
  modify (set_pos_ position) ;;
  ret tt.

(** The ranged fetch of [ReadAt]: the [try] block and its handler.  The
    value is the byte count the store reports and the destination as the
    store left it. *)
Definition download (position nbytes : Z) (out : Buffer) : M t (Z * Buffer) :=
  fun self net =>
    match blob_client_ self with
    | None => None
    | Some client =>
        let net' := (net ++ [DownloadToCall (GetUrl client) position nbytes])%list in
        match DownloadTo client net position nbytes with
        | inr result =>
            Some (Ok (ContentRange_Length result, store_into (Body result) out),
                  self, net')
        | inl exception =>
            Some (Err (ErrorToStatus
                         ("When reading from '" ++ GetUrl client
                            ++ "' at position " ++ to_string position
                            ++ " for " ++ to_string nbytes ++ " bytes: ")
                         exception),
                  self, net')
        end
    end.

(** [ReadAt(position, nbytes, out)]; [out] is the destination's content
    before the call, the second component of the value its content
    after. *)
Definition ReadAt (position nbytes : Z) (out : Buffer) : M t (Z * Buffer) :=
  check (CheckClosed "read") ;;
  check (CheckPosition position "read") ;;
  content_length <- gets content_length_ ;;
  let nbytes := Z.min nbytes (sub64 content_length position) in
  if nbytes =? 0 then ret (0, out)
  else download position nbytes out.

(** [ReadAt(position, nbytes)] returning a buffer. *)
Definition ReadAt_buffer (position nbytes : Z) : M t Buffer :=
  check (CheckClosed "read") ;;
  check (CheckPosition position "read") ;;
  content_length <- gets content_length_ ;;
  let nbytes := Z.min nbytes (sub64 content_length position) in
  buffer <- lift (AllocateResizableBuffer nbytes) ;;
  if nbytes >? 0 then
    r <- ReadAt position nbytes buffer ;;
    let bytes_read := fst r in
    lift (Resize bytes_read (snd r))
  else ret buffer.

Definition Read (nbytes : Z) (out : Buffer) : M t (Z * Buffer) :=
  pos <- gets pos_ ;;
  r <- ReadAt pos nbytes out ;;
  let bytes_read := fst r in
  modify (fun self => set_pos_ (add64 (pos_ self) bytes_read) self) ;;
  ret r.

Definition Read_buffer (nbytes : Z) : M t Buffer :=
  pos <- gets pos_ ;;
  buffer <- ReadAt_buffer pos nbytes ;;
  modify (fun self => set_pos_ (add64 (pos_ self) (size buffer)) self) ;;
  ret buffer.

End ObjectInputFile.

(* ===================================================================== *)
(** * AzureFileSystem::Impl *)

(** Modelled from the spec: [FileType] and the accessors of [FileInfo]
    (arrow/filesystem/filesystem.h is not part of the sources at hand): a
    file-info record has a path, a type and a reported size, [kNoSize] when
    the size is not known. *)
Inductive FileType : Type :=
| FileType_NotFound
| FileType_Unknown
| FileType_File
| FileType_Directory.

Record FileInfo : Type := {
  info_path : string;
  info_type : FileType;
  info_size : Z
}.

Module Impl.

(** [io_context_] is left out, as in [ObjectInputFile]. *)
Record t : Type := {
  service_client_ : option BlobServiceClient;
  options_ : AzureOptions.t
}.

Local Open Scope arrow_scope.

Definition options (self : t) : AzureOptions.t := options_ self.

(** [service_client_->GetBlobContainerClient(container).GetBlobClient(path)]:
    builds a client object, sends nothing. *)
Definition make_blob_client (path : AzurePath.t) : M t BlobClient :=
  fun self net =>
    match service_client_ self with
    | None => None
    | Some service =>
        Some (Ok (GetBlobClient
                    (GetBlobContainerClient service (AzurePath.container path))
                    (AzurePath.path_to_file path)),
              self, net)
    end.

(** [ptr->Init()] on the freshly made handle. *)
Definition init_handle (ptr : ObjectInputFile.t) : M t ObjectInputFile.t :=
  fun self net =>
    match ObjectInputFile.Init ptr net with
    | Some (Ok _, ptr', net') => Some (Ok ptr', self, net')
    | Some (Err e, _, net') => Some (Err e, self, net')
    | None => None
    end.

Definition OpenInputFile (s : string) : M t ObjectInputFile.t :=
  check (fun _ => internal.AssertNoTrailingSlash s) ;;
  path <- lift (AzurePath.FromString s) ;;
  check (fun _ => ValidateFilePath path) ;;
  blob_client <- make_blob_client path ;;
  let ptr := ObjectInputFile.make blob_client path kNoSize in
  init_handle ptr.

Definition FileType_eqb (a b : FileType) : bool :=
  match a, b with
  | FileType_NotFound, FileType_NotFound
  | FileType_Unknown, FileType_Unknown
  | FileType_File, FileType_File
  | FileType_Directory, FileType_Directory => true
  | _, _ => false
  end.

Definition OpenInputFile_info (info : FileInfo) : M t ObjectInputFile.t :=
  check (fun _ => internal.AssertNoTrailingSlash (info_path info)) ;;
  if FileType_eqb (info_type info) FileType_NotFound
  then raise (internal.PathNotFound (info_path info))
  else if negb (FileType_eqb (info_type info) FileType_File)
          && negb (FileType_eqb (info_type info) FileType_Unknown)
  then raise (internal.NotAFile (info_path info))
  else
    path <- lift (AzurePath.FromString (info_path info)) ;;
    check (fun _ => ValidateFilePath path) ;;
    blob_client <- make_blob_client path ;;
    let ptr := ObjectInputFile.make blob_client path (info_size info) in
    init_handle ptr.

End Impl.

(* ===================================================================== *)
(** * Stores used to run the model *)

Definition list_of_string (s : string) : list byte := list_byte_of_string s.

(** A store holding one object and delivering at most [cap] bytes per
    range request: the bytes of the range that exist, cut at [cap]. *)
Definition capped_blob (url : string) (content : list byte)
    (metadata : list (string * string)) (cap : nat) : BlobClient :=
  {| GetUrl := url;
     GetProperties := fun _ =>
       inr {| BlobSize := Z.of_nat (List.length content); Metadata := metadata |};
     DownloadTo := fun _ offset length =>
       let body :=
         firstn (Nat.min cap (Z.to_nat length)) (skipn (Z.to_nat offset) content) in
       inr {| ContentRange_Length := Z.of_nat (List.length body); Body := body |} |}.

(** A store that answers every request with the same exception. *)
Definition failing_blob (url : string) (exception : StorageException) : BlobClient :=
  {| GetUrl := url;
     GetProperties := fun _ => inl exception;
     DownloadTo := fun _ _ _ => inl exception |}.

Definition service_of (client : string -> string -> BlobClient) : BlobServiceClient :=
  {| GetBlobContainerClient := fun container =>
       {| GetBlobClient := fun blob => client container blob |} |}.

Definition hello : list byte := list_of_string "Hello Azure!".

Definition hello_client (cap : nat) : BlobClient :=
  capped_blob "http://127.0.0.1:10000/devstoreaccount1/sample-container/sample-blob.txt"
    hello [("k", "v")] cap.

Definition hello_path : AzurePath.t :=
  {| AzurePath.full_path := "sample-container/sample-blob.txt";
     AzurePath.container := "sample-container";
     AzurePath.path_to_file := "sample-blob.txt";
     AzurePath.path_to_file_parts := ["sample-blob.txt"] |}.

(** A handle of known size 12, cursor at 4, whose store fails every
    request. *)
Definition hello_file_unreachable : ObjectInputFile.t :=
  ObjectInputFile.set_pos_ 4
    (ObjectInputFile.make
       (failing_blob "http://store/c/b" {| StatusCode := 503; what := "ServerBusy" |})
       hello_path 12).

(** A facade whose service hands out that client for every blob. *)
Definition hello_impl : Impl.t :=
  {| Impl.service_client_ := Some (service_of (fun _ _ => hello_client 100));
     Impl.options_ :=
       {| AzureOptions.account_dfs_url := "http://127.0.0.1:10000/devstoreaccount1/";
          AzureOptions.account_blob_url := "http://127.0.0.1:10000/devstoreaccount1/";
          AzureOptions.backend := Azurite;
          AzureOptions.credentials_kind := StorageCredentials;
          AzureOptions.storage_credentials_provider :=
            Some {| AccountName := "devstoreaccount1"; AccountKey := "key" |} |} |}.

(** The handle over the 12-byte object after [Init]. *)
Definition hello_file (cap : nat) : ObjectInputFile.t :=
  ObjectInputFile.set_metadata_ (Some [("k", "v")])
    (ObjectInputFile.set_content_length_ 12
       (ObjectInputFile.make (hello_client cap) hello_path kNoSize)).

(* ===================================================================== *)
(** * Sequences of reads *)

(** Successive [Read(nbytes, out)] calls, one per requested count, each
    into a fresh destination; the values are collected in order. *)
Fixpoint read_all (requests : list Z) : M ObjectInputFile.t (list (Z * Buffer)) :=
  match requests with
  | [] => ret []
  | nbytes :: rest =>
      (r <- ObjectInputFile.Read nbytes [] ;;
       rs <- read_all rest ;;
       ret (r :: rs))%arrow
  end.

(** Successive [Read(nbytes)] calls returning buffers. *)
Fixpoint read_all_buffers (requests : list Z) : M ObjectInputFile.t (list Buffer) :=
  match requests with
  | [] => ret []
  | nbytes :: rest =>
      (b <- ObjectInputFile.Read_buffer nbytes ;;
       bs <- read_all_buffers rest ;;
       ret (b :: bs))%arrow
  end.

(** The bytes a [Read(nbytes, out)] handed over: as many of the destination
    as the returned count says. *)
Definition delivered (r : Z * Buffer) : list byte :=
  firstn (Z.to_nat (fst r)) (snd r).

(** The sum of the counts a sequence of reads returned. *)
Definition total (rs : list (Z * Buffer)) : Z :=
  fold_right (fun r acc => fst r + acc) 0 rs.

(** [content] from offset [from], at most [count] bytes. *)
Definition slice (content : list byte) (from : Z) (count : nat) : list byte :=
  firstn count (skipn (Z.to_nat from) content).

(** A store serves [content] when it answers every range request that lies
    inside the object with a prefix of the range asked for, possibly a
    short one, and reports the length of what it sent. *)
Definition serves (content : list byte) (client : BlobClient) : Prop :=
  forall net offset length,
    0 <= offset -> 0 < length ->
    offset + length <= Z.of_nat (List.length content) ->
    exists k : nat,
      Z.of_nat k <= length
      /\ DownloadTo client net offset length
         = inr {| ContentRange_Length := Z.of_nat k;
                  Body := slice content offset k |}.

(** The handle is open on the object [content] held behind [client], its
    length is the object's, and its cursor is inside. *)
Definition reading_from (content : list byte) (client : BlobClient)
    (f : ObjectInputFile.t) : Prop :=
  ObjectInputFile.closed_ f = false
  /\ ObjectInputFile.blob_client_ f = Some client
  /\ ObjectInputFile.content_length_ f = Z.of_nat (List.length content)
  /\ in_int64 (ObjectInputFile.content_length_ f)
  /\ 0 <= ObjectInputFile.pos_ f <= ObjectInputFile.content_length_ f.

(** A path segment that is not empty and holds no separator. *)
Definition good_part (p : string) : Prop :=
  p <> "" /\ find_first_of p internal.kSep = None.

(* ===================================================================== *)
(** * Callers of the handle *)

(** One call on a handle, by any of its public members (and [Init], which
    the facade calls). *)
Inductive Op : Type :=
| OpInit
| OpReadMetadata
| OpReadMetadataAsync
| OpClose
| OpTell
| OpGetSize
| OpSeek (position : Z)
| OpReadAt (position nbytes : Z) (out : Buffer)
| OpReadAt_buffer (position nbytes : Z)
| OpRead (nbytes : Z) (out : Buffer)
| OpRead_buffer (nbytes : Z).

(** What a call leaves behind, whatever it returned: the handle and the
    requests sent. *)
Definition after {A} (m : M ObjectInputFile.t A)
    (f : ObjectInputFile.t) (net : list StoreCall)
  : option (ObjectInputFile.t * list StoreCall) :=
  match m f net with
  | Some (_, f', net') => Some (f', net')
  | None => None
  end.

Definition step (op : Op) (f : ObjectInputFile.t) (net : list StoreCall)
  : option (ObjectInputFile.t * list StoreCall) :=
  match op with
  | OpInit => after ObjectInputFile.Init f net
  | OpReadMetadata => after ObjectInputFile.ReadMetadata f net
  | OpReadMetadataAsync => after ObjectInputFile.ReadMetadataAsync f net
  | OpClose => after ObjectInputFile.Close f net
  | OpTell => after ObjectInputFile.Tell f net
  | OpGetSize => after ObjectInputFile.GetSize f net
  | OpSeek position => after (ObjectInputFile.Seek position) f net
  | OpReadAt position nbytes out =>
      after (ObjectInputFile.ReadAt position nbytes out) f net
  | OpReadAt_buffer position nbytes =>
      after (ObjectInputFile.ReadAt_buffer position nbytes) f net
  | OpRead nbytes out => after (ObjectInputFile.Read nbytes out) f net
  | OpRead_buffer nbytes => after (ObjectInputFile.Read_buffer nbytes) f net
  end.

(** A caller's calls one after the other; the caller goes on after an
    error status. *)
Fixpoint steps (ops : list Op) (f : ObjectInputFile.t) (net : list StoreCall)
  : option (ObjectInputFile.t * list StoreCall) :=
  match ops with
  | [] => Some (f, net)
  | op :: rest =>
      match step op f net with
      | Some (f', net') => steps rest f' net'
      | None => None
      end
  end.

(** The four ways a call can leave a handle: untouched, cursor moved,
    closed, or size and metadata resolved (only from an unknown size). *)
Inductive change (f : ObjectInputFile.t) : ObjectInputFile.t -> Prop :=
| change_none : change f f
| change_cursor (position : Z) : change f (ObjectInputFile.set_pos_ position f)
| change_closed :
    change f (ObjectInputFile.set_closed_ true
                (ObjectInputFile.set_blob_client_ None f))
| change_resolved (size : Z) (md : KeyValueMetadata) :
    ObjectInputFile.content_length_ f = kNoSize ->
    change f (ObjectInputFile.set_metadata_ (Some md)
                (ObjectInputFile.set_content_length_ size f)).

(** The requests after a call are those before it, with at most one more
    at the end. *)
Definition sent_at_most_one (net net' : list StoreCall) : Prop :=
  net' = net \/ exists call, net' = (net ++ [call])%list.

(** A store client that never reports more bytes than the range asked for,
    nor a negative count (so none at all for a range of negative length). *)
Definition delivers_at_most (client : BlobClient) : Prop :=
  forall net offset length result,
    DownloadTo client net offset length = inr result ->
    0 <= ContentRange_Length result <= Z.max 0 length.

(** The handle's size is resolved and fits, and its cursor is inside. *)
Definition cursor_in_range (f : ObjectInputFile.t) : Prop :=
  in_int64 (ObjectInputFile.content_length_ f)
  /\ 0 <= ObjectInputFile.pos_ f <= ObjectInputFile.content_length_ f.

(* ===================================================================== *)
(** * Theorems *)

(** ** Machine integers *)

Lemma wrap64_id (z : Z) : in_int64 z -> wrap64 z = z.
Proof.
  unfold in_int64, int64_min, int64_max, wrap64. intros H.
  rewrite Z.mod_small; lia.
Qed.

Lemma sub64_exact (len pos : Z) :
  in_int64 len -> 0 <= pos <= len -> sub64 len pos = len - pos.
Proof.
  unfold sub64. intros Hlen Hpos. apply wrap64_id.
  unfold in_int64, int64_min, int64_max in *. lia.
Qed.

(** ** Strings *)

Lemma str_empty_true (s : string) : str_empty s = true <-> s = "".
Proof. destruct s; simpl; split; congruence. Qed.

Lemma str_empty_false (s : string) : str_empty s = false <-> s <> "".
Proof. destruct s; simpl; split; congruence. Qed.

Lemma find_first_of_append (c rest : string) (sep : ascii) :
  find_first_of c sep = None ->
  find_first_of (c ++ String sep rest) sep = Some (String.length c).
Proof.
  induction c as [|a c IH]; simpl.
  - intros _. now rewrite Ascii.eqb_refl.
  - destruct (Ascii.eqb a sep); [discriminate|].
    destruct (find_first_of c sep); [discriminate|].
    intros _. now rewrite IH.
Qed.

Lemma find_first_of_append_none (a b : string) (sep : ascii) :
  find_first_of a sep = None -> find_first_of b sep = None ->
  find_first_of (a ++ b) sep = None.
Proof.
  induction a as [|x a IH]; simpl; [easy|].
  destruct (Ascii.eqb x sep); [discriminate|].
  destruct (find_first_of a sep); [discriminate|].
  intros _ Hb. now rewrite IH.
Qed.

Lemma substring_all (s : string) (n : nat) :
  (String.length s <= n)%nat -> String.substring 0 n s = s.
Proof.
  revert n. induction s as [|a s IH]; intros [|n]; simpl; intros H; try easy; try lia.
  f_equal. apply IH. lia.
Qed.

Lemma substr_prefix (c x : string) : substr (c ++ x) 0 (String.length c) = c.
Proof.
  unfold substr. induction c as [|a c IH]; simpl.
  - now destruct x.
  - now rewrite IH.
Qed.

Lemma substring_skip (c x : string) (m : nat) :
  String.substring (String.length c) m (c ++ x) = String.substring 0 m x.
Proof. induction c as [|a c IH]; simpl; [reflexivity | exact IH]. Qed.

Lemma length_append (a b : string) :
  String.length (a ++ b) = (String.length a + String.length b)%nat.
Proof. induction a as [|x a IH]; simpl; [reflexivity | now rewrite IH]. Qed.

Lemma append_assoc (a b c : string) : (a ++ b) ++ c = a ++ b ++ c.
Proof. induction a as [|x a IH]; simpl; [reflexivity | now rewrite IH]. Qed.

Lemma substring_after (c rest : string) (sep : ascii) (m : nat) :
  (String.length rest <= m)%nat ->
  String.substring (String.length c + 1) m (c ++ String sep rest) = rest.
Proof.
  intros Hm. induction c as [|a c IH]; simpl.
  - now apply substring_all.
  - exact IH.
Qed.

Lemma substr_from_suffix (c rest : string) (sep : ascii) :
  substr_from (c ++ String sep rest) (String.length c + 1) = rest.
Proof.
  unfold substr_from. apply substring_after.
  rewrite length_append. simpl. lia.
Qed.

(** ** Path utilities *)

Lemma RemoveTrailingSlash_idem (s : string) :
  internal.RemoveTrailingSlash (internal.RemoveTrailingSlash s)
  = internal.RemoveTrailingSlash s.
Proof.
  induction s as [|c s IH]; simpl; [reflexivity|].
  destruct (internal.RemoveTrailingSlash s) as [|d kept] eqn:E.
  - destruct (Ascii.eqb c internal.kSep) eqn:Ec; simpl; [reflexivity|].
    now rewrite Ec.
  - change (internal.RemoveTrailingSlash (String c (String d kept)))
      with (match internal.RemoveTrailingSlash (String d kept) with
            | EmptyString =>
                if Ascii.eqb c internal.kSep then EmptyString else String c EmptyString
            | k => String c k
            end).
    now rewrite IH.
Qed.

Lemma scheme_tail_RemoveTrailingSlash (s : string) :
  internal.scheme_tail (internal.RemoveTrailingSlash s) = internal.scheme_tail s.
Proof.
  induction s as [|c s IH]; simpl; [reflexivity|].
  destruct (internal.RemoveTrailingSlash s) as [|d kept] eqn:E.
  - simpl in IH.
    destruct (Ascii.eqb c internal.kSep) eqn:Ec; simpl.
    + apply Ascii.eqb_eq in Ec. subst c. reflexivity.
    + rewrite <- IH. reflexivity.
  - simpl. rewrite <- IH. reflexivity.
Qed.

Lemma IsLikelyUri_RemoveTrailingSlash (s : string) :
  internal.IsLikelyUri (internal.RemoveTrailingSlash s) = internal.IsLikelyUri s.
Proof.
  destruct s as [|c s]; simpl; [reflexivity|].
  pose proof (scheme_tail_RemoveTrailingSlash s) as Ht.
  destruct (internal.RemoveTrailingSlash s) as [|d kept] eqn:E.
  - simpl in Ht. rewrite <- Ht.
    destruct (Ascii.eqb c internal.kSep) eqn:Ec; simpl.
    + apply Ascii.eqb_eq in Ec. subst c. reflexivity.
    + reflexivity.
  - simpl. now rewrite <- Ht.
Qed.

(** A string that does not end in a separator is left alone. *)
Lemma RemoveTrailingSlash_no_sep (b : string) :
  b <> "" -> find_first_of b internal.kSep = None ->
  internal.RemoveTrailingSlash b = b.
Proof.
  induction b as [|x b IH]; [congruence|]. intros _. simpl.
  destruct (Ascii.eqb x internal.kSep) eqn:Ex; [discriminate|].
  destruct (find_first_of b internal.kSep) eqn:Eb; [discriminate|]. intros _.
  destruct b as [|y b]; [reflexivity|].
  rewrite IH; [reflexivity | congruence | reflexivity].
Qed.

Lemma RemoveTrailingSlash_append (x b : string) :
  b <> "" -> internal.RemoveTrailingSlash b = b ->
  internal.RemoveTrailingSlash (x ++ b) = x ++ b.
Proof.
  intros Hb Hfix. induction x as [|a x IH]; simpl; [exact Hfix|].
  rewrite IH. destruct (x ++ b) eqn:E; [|reflexivity].
  destruct x; simpl in E; [congruence | discriminate].
Qed.

Lemma split_on_sep_no_sep (b : string) :
  find_first_of b internal.kSep = None -> internal.split_on_sep b = [b].
Proof.
  induction b as [|x b IH]; simpl; [reflexivity|].
  destruct (Ascii.eqb x internal.kSep); [discriminate|].
  destruct (find_first_of b internal.kSep); [discriminate|].
  intros _. now rewrite IH.
Qed.

Lemma split_on_sep_append (a rest : string) :
  find_first_of a internal.kSep = None ->
  internal.split_on_sep (a ++ String internal.kSep rest)
  = a :: internal.split_on_sep rest.
Proof.
  induction a as [|x a IH]; simpl.
  - intros _. reflexivity.
  - destruct (Ascii.eqb x internal.kSep); [discriminate|].
    destruct (find_first_of a internal.kSep); [discriminate|].
    intros _. now rewrite IH.
Qed.

(** ** AzurePath *)

(** A successful parse keeps the string, trailing separators stripped, as
    the full path. *)
Lemma FromString_full_path (s : string) (a : AzurePath.t) :
  AzurePath.FromString s = Ok a ->
  AzurePath.full_path a = internal.RemoveTrailingSlash s.
Proof.
  unfold AzurePath.FromString.
  destruct (internal.IsLikelyUri s); [discriminate|].
  destruct (find_first_of (internal.RemoveTrailingSlash s) internal.kSep)
    as [[|i]|]; [discriminate| |].
  - unfold return_not_ok.
    destruct (AzurePath.Validate _); try discriminate.
    intros H. injection H as <-. reflexivity.
  - intros H. injection H as <-. reflexivity.
Qed.

(** Two strings that differ in trailing separators only parse alike. *)
Lemma FromString_formatting (s s' : string) (a : AzurePath.t) :
  internal.RemoveTrailingSlash s' = internal.RemoveTrailingSlash s ->
  AzurePath.FromString s = Ok a ->
  AzurePath.FromString s' = Ok a.
Proof.
  intros Hsame. unfold AzurePath.FromString.
  rewrite <- (IsLikelyUri_RemoveTrailingSlash s'), Hsame,
    IsLikelyUri_RemoveTrailingSlash.
  destruct (internal.IsLikelyUri s); [discriminate|].
  destruct (find_first_of (internal.RemoveTrailingSlash s) internal.kSep)
    as [[|i]|]; [discriminate | exact (fun H => H) | exact (fun H => H)].
Qed.

Lemma AzurePath_eqb_spec (a b : AzurePath.t) :
  AzurePath.eqb a b = true
  <-> AzurePath.container a = AzurePath.container b
      /\ AzurePath.path_to_file a = AzurePath.path_to_file b.
Proof.
  unfold AzurePath.eqb. rewrite andb_true_iff, !String.eqb_eq. reflexivity.
Qed.

(** C7.  An address [a] obtained from a successful parse parses back from
    its own [full_path] to an address equal to [a]; [operator==] holds
    exactly when the two (container, path_to_file) pairs are equal; and any
    string that differs from the original in trailing separators only also
    parses to an address equal to [a]. *)
Theorem FromString_round_trip (s : string) (a : AzurePath.t) :
  AzurePath.FromString s = Ok a ->
  (exists a', AzurePath.FromString (AzurePath.full_path a) = Ok a'
              /\ AzurePath.eqb a' a = true)
  /\ (forall x y : AzurePath.t,
         AzurePath.eqb x y = true
         <-> AzurePath.container x = AzurePath.container y
             /\ AzurePath.path_to_file x = AzurePath.path_to_file y)
  /\ (forall s', internal.RemoveTrailingSlash s' = internal.RemoveTrailingSlash s ->
                 exists a', AzurePath.FromString s' = Ok a'
                            /\ AzurePath.eqb a' a = true).
Proof.
  intros Hparse.
  assert (Hrefl : AzurePath.eqb a a = true) by (apply AzurePath_eqb_spec; auto).
  split; [|split].
  - exists a. split; [|exact Hrefl].
    apply (FromString_formatting s); [|exact Hparse].
    rewrite (FromString_full_path s a Hparse). apply RemoveTrailingSlash_idem.
  - exact AzurePath_eqb_spec.
  - intros s' Hsame. exists a. split; [|exact Hrefl].
    now apply (FromString_formatting s).
Qed.

Lemma FromString_round_trip_witness :
  AzurePath.FromString "c/a/b//" =
    Ok {| AzurePath.full_path := "c/a/b"; AzurePath.container := "c";
          AzurePath.path_to_file := "a/b";
          AzurePath.path_to_file_parts := ["a"; "b"] |}
  /\ (exists a', AzurePath.FromString "c/a/b" = Ok a'
                 /\ AzurePath.eqb a'
                      {| AzurePath.full_path := "c/a/b"; AzurePath.container := "c";
                         AzurePath.path_to_file := "a/b";
                         AzurePath.path_to_file_parts := ["a"; "b"] |} = true).
Proof.
  split; [reflexivity|].
  exact (proj1 (FromString_round_trip "c/a/b//" _ eq_refl)).
Defined.

(** C3, as amended.  A string [c/a/b] that does not look like a URI, with
    [c], [a], [b] free of separators, [c] not empty and [a], [b] accepted by
    the parts validator, parses to container [c], path [a/b] and parts
    [a; b]; its parent is container [c] with path [a] and full path [c/a],
    and the parent of that is the container alone.  A string without a
    separator that does not look like a URI parses to itself as container
    and full path, with an empty path and no parts. *)
Theorem FromString_splits_at_first_separator :
  (forall c a b : string,
      let s := c ++ sep ++ a ++ sep ++ b in
      internal.IsLikelyUri s = false ->
      c <> "" ->
      find_first_of c internal.kSep = None ->
      find_first_of a internal.kSep = None ->
      find_first_of b internal.kSep = None ->
      internal.ValidateAbstractPathParts [a; b] = OK ->
      exists p,
        AzurePath.FromString s = Ok p
        /\ p = {| AzurePath.full_path := s;
                  AzurePath.container := c;
                  AzurePath.path_to_file := a ++ sep ++ b;
                  AzurePath.path_to_file_parts := [a; b] |}
        /\ AzurePath.has_parent p = true
        /\ AzurePath.parent p
           = {| AzurePath.full_path := c ++ sep ++ a;
                AzurePath.container := c;
                AzurePath.path_to_file := a;
                AzurePath.path_to_file_parts := [a] |}
        /\ AzurePath.parent (AzurePath.parent p)
           = {| AzurePath.full_path := c;
                AzurePath.container := c;
                AzurePath.path_to_file := "";
                AzurePath.path_to_file_parts := [] |})
  /\ (forall s : string,
         internal.IsLikelyUri s = false ->
         find_first_of s internal.kSep = None ->
         AzurePath.FromString s
         = Ok {| AzurePath.full_path := s;
                 AzurePath.container := s;
                 AzurePath.path_to_file := "";
                 AzurePath.path_to_file_parts := [] |}).
Proof.
  split.
  - intros c a b s Huri Hc Hcsep Hasep Hbsep Hvalid.
    assert (Ha : a <> "") by (intros ->; discriminate Hvalid).
    assert (Hb : b <> "").
    { intros ->. simpl in Hvalid. destruct (str_empty a); [discriminate|].
      destruct (internal.reserved_part a); discriminate. }
    assert (Hs : s = c ++ String internal.kSep (a ++ String internal.kSep b))
      by reflexivity.
    assert (Hstrip : internal.RemoveTrailingSlash s = s).
    { replace s with ((c ++ sep ++ a ++ sep) ++ b)
        by (unfold s; now rewrite !append_assoc).
      apply RemoveTrailingSlash_append; [exact Hb|].
      now apply RemoveTrailingSlash_no_sep. }
    eexists. split; [|split; [reflexivity|]].
    + unfold AzurePath.FromString. rewrite Huri, Hstrip, Hs.
      rewrite (find_first_of_append c _ _ Hcsep).
      destruct (String.length c) as [|n] eqn:Elen;
        [destruct c; [congruence | discriminate]|].
      rewrite <- Elen, substr_prefix, substr_from_suffix.
      unfold internal.SplitAbstractPath.
      replace (str_empty (a ++ String internal.kSep b)) with false
        by (destruct a; reflexivity).
      rewrite (split_on_sep_append a b Hasep), (split_on_sep_no_sep b Hbsep).
      unfold AzurePath.Validate. simpl AzurePath.path_to_file_parts.
      rewrite Hvalid. reflexivity.
    + assert (Ea : str_empty a = false) by now apply str_empty_false.
      unfold AzurePath.has_parent, AzurePath.parent. simpl.
      change (internal.JoinAbstractPath [a]) with a.
      change (internal.JoinAbstractPath []) with "".
      rewrite Ea. repeat split.
      destruct a; [congruence | reflexivity].
  - intros s Huri Hsep.
    assert (Hstrip : internal.RemoveTrailingSlash s = s).
    { destruct s as [|x s]; [reflexivity|].
      now apply RemoveTrailingSlash_no_sep. }
    unfold AzurePath.FromString. rewrite Huri, Hstrip, Hsep. reflexivity.
Qed.

Lemma FromString_splits_at_first_separator_witness :
  (exists p,
      AzurePath.FromString "testcontainer/testdir/testfile.txt" = Ok p
      /\ p = {| AzurePath.full_path := "testcontainer/testdir/testfile.txt";
                AzurePath.container := "testcontainer";
                AzurePath.path_to_file := "testdir/testfile.txt";
                AzurePath.path_to_file_parts := ["testdir"; "testfile.txt"] |}
      /\ AzurePath.has_parent p = true
      /\ AzurePath.parent p
         = {| AzurePath.full_path := "testcontainer/testdir";
              AzurePath.container := "testcontainer";
              AzurePath.path_to_file := "testdir";
              AzurePath.path_to_file_parts := ["testdir"] |}
      /\ AzurePath.parent (AzurePath.parent p)
         = {| AzurePath.full_path := "testcontainer";
              AzurePath.container := "testcontainer";
              AzurePath.path_to_file := "";
              AzurePath.path_to_file_parts := [] |})
  /\ AzurePath.FromString "testcontainer"
     = Ok {| AzurePath.full_path := "testcontainer";
             AzurePath.container := "testcontainer";
             AzurePath.path_to_file := "";
             AzurePath.path_to_file_parts := [] |}.
Proof.
  split.
  - apply (proj1 FromString_splits_at_first_separator
             "testcontainer" "testdir" "testfile.txt");
      solve [reflexivity | discriminate].
  - apply (proj2 FromString_splits_at_first_separator "testcontainer");
      reflexivity.
Defined.

(** C3, as first stated, fails: a string without a separator that looks
    like a URI is rejected with Invalid, not taken as a container. *)
Lemma FromString_no_separator_uri_rejected :
  find_first_of "mailto:user@example.com" internal.kSep = None
  /\ AzurePath.FromString "mailto:user@example.com"
     = Err (Invalid
              "Expected an Azure object path of the form 'container/path...', got a URI: 'mailto:user@example.com'")
  /\ ~ (forall s : string,
          find_first_of s internal.kSep = None ->
          AzurePath.FromString s
          = Ok {| AzurePath.full_path := s;
                  AzurePath.container := s;
                  AzurePath.path_to_file := "";
                  AzurePath.path_to_file_parts := [] |}).
Proof.
  split; [reflexivity|]. split; [reflexivity|].
  intros Hall. specialize (Hall "mailto:user@example.com" eq_refl).
  discriminate Hall.
Qed.

(** ** ObjectInputFile: closing, seeking, metadata *)

Lemma CheckClosed_open (action : string) (f : ObjectInputFile.t) :
  ObjectInputFile.closed_ f = false -> ObjectInputFile.CheckClosed action f = OK.
Proof. unfold ObjectInputFile.CheckClosed. now intros ->. Qed.

Lemma CheckClosed_closed (action : string) (f : ObjectInputFile.t) :
  ObjectInputFile.closed_ f = true ->
  ObjectInputFile.CheckClosed action f
  = Invalid ("Cannot " ++ action ++ " on closed file.").
Proof. unfold ObjectInputFile.CheckClosed. now intros ->. Qed.

Lemma CheckPosition_ok (position : Z) (action : string) (f : ObjectInputFile.t) :
  0 <= position <= ObjectInputFile.content_length_ f ->
  ObjectInputFile.CheckPosition position action f = OK.
Proof.
  intros H. unfold ObjectInputFile.CheckPosition.
  destruct (Z.ltb_spec position 0); [lia|].
  rewrite Z.gtb_ltb.
  destruct (Z.ltb_spec (ObjectInputFile.content_length_ f) position); [lia|].
  reflexivity.
Qed.

Lemma CheckPosition_negative (position : Z) (action : string) (f : ObjectInputFile.t) :
  position < 0 ->
  ObjectInputFile.CheckPosition position action f
  = Invalid ("Cannot " ++ action ++ " from negative position").
Proof.
  intros H. unfold ObjectInputFile.CheckPosition.
  destruct (Z.ltb_spec position 0); [reflexivity | lia].
Qed.

Lemma CheckPosition_past_end (position : Z) (action : string) (f : ObjectInputFile.t) :
  0 <= position -> position > ObjectInputFile.content_length_ f ->
  ObjectInputFile.CheckPosition position action f
  = IOError ("Cannot " ++ action ++ " past end of file").
Proof.
  intros H0 H. unfold ObjectInputFile.CheckPosition.
  destruct (Z.ltb_spec position 0); [lia|].
  rewrite Z.gtb_ltb.
  destruct (Z.ltb_spec (ObjectInputFile.content_length_ f) position); [reflexivity | lia].
Qed.

(** C4.  On a handle whose [content_length_] is resolved, [Seek] fails
    with Invalid when the handle is closed; on an open handle it fails with
    Invalid for a negative position, with IOError for a position past
    [content_length_], and otherwise, the end-of-file position included,
    succeeds and makes the position the cursor.  A failed [Seek] leaves the
    handle as it was, and no [Seek] sends anything to the store. *)
Theorem Seek_checks (f : ObjectInputFile.t) (net : list StoreCall) (position : Z) :
  0 <= ObjectInputFile.content_length_ f ->
  (ObjectInputFile.closed_ f = true ->
   ObjectInputFile.Seek position f net
   = Some (Err (Invalid "Cannot seek on closed file."), f, net))
  /\ (ObjectInputFile.closed_ f = false -> position < 0 ->
      ObjectInputFile.Seek position f net
      = Some (Err (Invalid "Cannot seek from negative position"), f, net))
  /\ (ObjectInputFile.closed_ f = false ->
      position > ObjectInputFile.content_length_ f ->
      ObjectInputFile.Seek position f net
      = Some (Err (IOError "Cannot seek past end of file"), f, net))
  /\ (ObjectInputFile.closed_ f = false ->
      0 <= position <= ObjectInputFile.content_length_ f ->
      ObjectInputFile.Seek position f net
      = Some (Ok tt, ObjectInputFile.set_pos_ position f, net)
        /\ ObjectInputFile.pos_ (ObjectInputFile.set_pos_ position f) = position).
Proof.
  intros Hlen.
  unfold ObjectInputFile.Seek, bind, check, modify, ret.
  split; [|split; [|split]].
  - intros Hc. now rewrite (CheckClosed_closed "seek" f Hc).
  - intros Hc Hneg.
    now rewrite (CheckClosed_open "seek" f Hc), (CheckPosition_negative _ "seek" f Hneg).
  - intros Hc Hpast.
    rewrite (CheckClosed_open "seek" f Hc), (CheckPosition_past_end _ "seek" f);
      [reflexivity | lia | exact Hpast].
  - intros Hc Hin.
    now rewrite (CheckClosed_open "seek" f Hc), (CheckPosition_ok _ "seek" f Hin).
Qed.

Lemma Seek_checks_witness :
  ObjectInputFile.Seek 12 (ObjectInputFile.set_closed_ true (hello_file 100)) []
  = Some (Err (Invalid "Cannot seek on closed file."),
          ObjectInputFile.set_closed_ true (hello_file 100), [])
  /\ ObjectInputFile.Seek (-1) (hello_file 100) []
     = Some (Err (Invalid "Cannot seek from negative position"), hello_file 100, [])
  /\ ObjectInputFile.Seek 13 (hello_file 100) []
     = Some (Err (IOError "Cannot seek past end of file"), hello_file 100, [])
  /\ ObjectInputFile.Seek 12 (hello_file 100) []
     = Some (Ok tt, ObjectInputFile.set_pos_ 12 (hello_file 100), []).
Proof.
  assert (Hlen : 0 <= 12) by lia.
  split; [|split; [|split]].
  - apply (proj1 (Seek_checks (ObjectInputFile.set_closed_ true (hello_file 100))
                    [] 12 Hlen)).
    reflexivity.
  - apply (proj1 (proj2 (Seek_checks (hello_file 100) [] (-1) Hlen)));
      [reflexivity | lia].
  - apply (proj1 (proj2 (proj2 (Seek_checks (hello_file 100) [] 13 Hlen))));
      [reflexivity | simpl; lia].
  - apply (proj2 (proj2 (proj2 (Seek_checks (hello_file 100) [] 12 Hlen))));
      [reflexivity | simpl; lia].
Defined.

(** Every operation that checks the closed flag, on a closed handle. *)
Lemma closed_handle_refuses (f : ObjectInputFile.t) (net : list StoreCall) :
  ObjectInputFile.closed_ f = true ->
  ObjectInputFile.Tell f net
  = Some (Err (Invalid "Cannot tell on closed file."), f, net)
  /\ ObjectInputFile.GetSize f net
     = Some (Err (Invalid "Cannot size on closed file."), f, net)
  /\ (forall position,
         ObjectInputFile.Seek position f net
         = Some (Err (Invalid "Cannot seek on closed file."), f, net))
  /\ (forall position nbytes out,
         ObjectInputFile.ReadAt position nbytes out f net
         = Some (Err (Invalid "Cannot read on closed file."), f, net))
  /\ (forall position nbytes,
         ObjectInputFile.ReadAt_buffer position nbytes f net
         = Some (Err (Invalid "Cannot read on closed file."), f, net))
  /\ (forall nbytes out,
         ObjectInputFile.Read nbytes out f net
         = Some (Err (Invalid "Cannot read on closed file."), f, net))
  /\ (forall nbytes,
         ObjectInputFile.Read_buffer nbytes f net
         = Some (Err (Invalid "Cannot read on closed file."), f, net)).
Proof.
  intros Hc.
  unfold ObjectInputFile.Tell, ObjectInputFile.GetSize, ObjectInputFile.Seek,
    ObjectInputFile.Read, ObjectInputFile.Read_buffer,
    ObjectInputFile.ReadAt_buffer, ObjectInputFile.ReadAt,
    bind, check, gets, ObjectInputFile.CheckClosed.
  rewrite Hc. repeat split.
Qed.

(** C10.  [Close] returns OK on every handle, clears the blob client, sets
    the closed flag and touches nothing else; on the handle it leaves
    behind, a second [Close], whenever it comes, returns OK again and
    changes nothing.  No request is sent to the store. *)
Theorem Close_idempotent (f : ObjectInputFile.t) (net : list StoreCall) :
  exists f',
    ObjectInputFile.Close f net = Some (Ok tt, f', net)
    /\ ObjectInputFile.blob_client_ f' = None
    /\ ObjectInputFile.closed f' = true
    /\ ObjectInputFile.path_ f' = ObjectInputFile.path_ f
    /\ ObjectInputFile.pos_ f' = ObjectInputFile.pos_ f
    /\ ObjectInputFile.content_length_ f' = ObjectInputFile.content_length_ f
    /\ ObjectInputFile.metadata_ f' = ObjectInputFile.metadata_ f
    /\ (forall net2, ObjectInputFile.Close f' net2 = Some (Ok tt, f', net2)).
Proof.
  eexists. split; [reflexivity|]. repeat split.
Qed.

(** C9.  [ReadMetadata] and [ReadMetadataAsync] return the cached metadata
    of any handle, and still do so on the handle [Close] leaves behind,
    where [Tell], [GetSize], [Seek] and the reads are all refused with
    Invalid. *)
Theorem ReadMetadata_after_Close (f : ObjectInputFile.t) (net : list StoreCall) :
  ObjectInputFile.ReadMetadata f net
  = Some (Ok (ObjectInputFile.metadata_ f), f, net)
  /\ ObjectInputFile.ReadMetadataAsync f net
     = Some (Ok (ObjectInputFile.metadata_ f), f, net)
  /\ exists f',
      ObjectInputFile.Close f net = Some (Ok tt, f', net)
      /\ ObjectInputFile.closed f' = true
      /\ ObjectInputFile.ReadMetadata f' net
         = Some (Ok (ObjectInputFile.metadata_ f), f', net)
      /\ ObjectInputFile.ReadMetadataAsync f' net
         = Some (Ok (ObjectInputFile.metadata_ f), f', net)
      /\ ObjectInputFile.Tell f' net
         = Some (Err (Invalid "Cannot tell on closed file."), f', net)
      /\ ObjectInputFile.GetSize f' net
         = Some (Err (Invalid "Cannot size on closed file."), f', net)
      /\ (forall position,
             ObjectInputFile.Seek position f' net
             = Some (Err (Invalid "Cannot seek on closed file."), f', net))
      /\ (forall position nbytes out,
             ObjectInputFile.ReadAt position nbytes out f' net
             = Some (Err (Invalid "Cannot read on closed file."), f', net))
      /\ (forall nbytes out,
             ObjectInputFile.Read nbytes out f' net
             = Some (Err (Invalid "Cannot read on closed file."), f', net)).
Proof.
  split; [reflexivity|]. split; [reflexivity|].
  eexists. split; [reflexivity|].
  match goal with
  | |- _ /\ _ /\ _ /\ ?rest =>
      split; [reflexivity|]; split; [reflexivity|]; split; [reflexivity|]
  end.
  pose proof (closed_handle_refuses
                (ObjectInputFile.set_closed_ true
                   (ObjectInputFile.set_blob_client_ None f)) net eq_refl)
    as (Ht & Hs & Hk & Hr & _ & Hd & _).
  repeat split; assumption.
Qed.

(** ** ObjectInputFile: initialisation *)

(** C5.  When the property fetch of [Init] throws, a NotFound status code
    gives the path-not-found error for the handle's own [full_path]; any
    other exception gives an IOError whose message is the "When fetching
    properties for '<url>': " context, the " Azure Error: " tag and then the
    exception's own text, unchanged.  Either way the handle is left as it
    was and exactly one request went out. *)
Theorem Init_fetch_failure
    (f : ObjectInputFile.t) (net : list StoreCall)
    (client : BlobClient) (exception : StorageException) :
  ObjectInputFile.content_length_ f = kNoSize ->
  ObjectInputFile.blob_client_ f = Some client ->
  GetProperties client net = inl exception ->
  (StatusCode exception = HttpStatusCode_NotFound ->
   ObjectInputFile.Init f net
   = Some (Err (PathNotFoundError (AzurePath.full_path (ObjectInputFile.path_ f))),
           f, (net ++ [GetPropertiesCall (GetUrl client)])%list))
  /\ (StatusCode exception <> HttpStatusCode_NotFound ->
      ObjectInputFile.Init f net
      = Some (Err (IOError (("When fetching properties for '" ++ GetUrl client ++ "': ")
                              ++ " Azure Error: " ++ what exception)),
              f, (net ++ [GetPropertiesCall (GetUrl client)])%list)).
Proof.
  intros Hsize Hclient Hthrow. unfold ObjectInputFile.Init.
  rewrite Hsize, Hclient, Hthrow. simpl negb. cbv iota.
  split; intros Hcode.
  - rewrite Hcode. reflexivity.
  - destruct (Z.eqb_spec (StatusCode exception) HttpStatusCode_NotFound);
      [contradiction | reflexivity].
Qed.

Lemma Init_fetch_failure_witness :
  ObjectInputFile.Init
    (ObjectInputFile.make
       (failing_blob "http://store/c/b" {| StatusCode := 404; what := "BlobNotFound" |})
       hello_path kNoSize) []
  = Some (Err (PathNotFoundError "sample-container/sample-blob.txt"),
          ObjectInputFile.make
            (failing_blob "http://store/c/b" {| StatusCode := 404; what := "BlobNotFound" |})
            hello_path kNoSize,
          [GetPropertiesCall "http://store/c/b"])
  /\ ObjectInputFile.Init
       (ObjectInputFile.make
          (failing_blob "http://store/c/b" {| StatusCode := 503; what := "ServerBusy" |})
          hello_path kNoSize) []
     = Some (Err (IOError
                    "When fetching properties for 'http://store/c/b':  Azure Error: ServerBusy"),
             ObjectInputFile.make
               (failing_blob "http://store/c/b" {| StatusCode := 503; what := "ServerBusy" |})
               hello_path kNoSize,
             [GetPropertiesCall "http://store/c/b"]).
Proof.
  split.
  - apply (proj1 (Init_fetch_failure
                    (ObjectInputFile.make
                       (failing_blob "http://store/c/b"
                          {| StatusCode := 404; what := "BlobNotFound" |})
                       hello_path kNoSize)
                    [] _ _ eq_refl eq_refl eq_refl)).
    reflexivity.
  - apply (proj2 (Init_fetch_failure
                    (ObjectInputFile.make
                       (failing_blob "http://store/c/b"
                          {| StatusCode := 503; what := "ServerBusy" |})
                       hello_path kNoSize)
                    [] _ _ eq_refl eq_refl eq_refl)).
    discriminate.
Defined.

(** ** ObjectInputFile: reading *)

Lemma download_spec (f : ObjectInputFile.t) (net : list StoreCall)
    (client : BlobClient) (position nbytes : Z) (out : Buffer) :
  ObjectInputFile.blob_client_ f = Some client ->
  ObjectInputFile.download position nbytes out f net
  = Some (match DownloadTo client net position nbytes with
          | inr result =>
              Ok (ContentRange_Length result, store_into (Body result) out)
          | inl exception =>
              Err (ErrorToStatus
                     ("When reading from '" ++ GetUrl client
                        ++ "' at position " ++ to_string position
                        ++ " for " ++ to_string nbytes ++ " bytes: ")
                     exception)
          end,
          f, (net ++ [DownloadToCall (GetUrl client) position nbytes])%list).
Proof.
  intros Hclient. unfold ObjectInputFile.download. rewrite Hclient.
  now destruct (DownloadTo client net position nbytes).
Qed.

(** [ReadAt] on an open handle at a valid position: the clamp, then either
    nothing or the one ranged fetch. *)
Lemma ReadAt_spec (f : ObjectInputFile.t) (net : list StoreCall)
    (position nbytes : Z) (out : Buffer) :
  ObjectInputFile.closed_ f = false ->
  in_int64 (ObjectInputFile.content_length_ f) ->
  0 <= position <= ObjectInputFile.content_length_ f ->
  ObjectInputFile.ReadAt position nbytes out f net
  = if Z.min nbytes (ObjectInputFile.content_length_ f - position) =? 0
    then Some (Ok (0, out), f, net)
    else ObjectInputFile.download position
           (Z.min nbytes (ObjectInputFile.content_length_ f - position)) out f net.
Proof.
  intros Hopen Hlen Hpos.
  unfold ObjectInputFile.ReadAt, bind, check, gets, ret.
  rewrite (CheckClosed_open "read" f Hopen), (CheckPosition_ok _ "read" f Hpos).
  rewrite (sub64_exact _ _ Hlen Hpos).
  now destruct (Z.min nbytes (ObjectInputFile.content_length_ f - position) =? 0).
Qed.

(** C1.  On an initialised, open handle and for a position between 0 and
    [content_length_], [ReadAt] first cuts the requested count down to
    [content_length_ - position].  A count cut down to 0 returns 0, leaves
    the destination alone and sends nothing to the store; any other count
    sends exactly one ranged fetch, for the cut-down count at that position,
    and returns what the store reports for it.  With [content_length_ = 12],
    [ReadAt 10 100] asks the store for 2 bytes at offset 10 and, the store
    delivering them, returns 2. *)
Theorem ReadAt_clamps
    (f : ObjectInputFile.t) (net : list StoreCall) (client : BlobClient)
    (position nbytes : Z) (out : Buffer) :
  ObjectInputFile.closed_ f = false ->
  ObjectInputFile.blob_client_ f = Some client ->
  in_int64 (ObjectInputFile.content_length_ f) ->
  0 <= position <= ObjectInputFile.content_length_ f ->
  let clamped := Z.min nbytes (ObjectInputFile.content_length_ f - position) in
  (clamped = 0 ->
   ObjectInputFile.ReadAt position nbytes out f net = Some (Ok (0, out), f, net))
  /\ (clamped <> 0 ->
      ObjectInputFile.ReadAt position nbytes out f net
      = Some (match DownloadTo client net position clamped with
              | inr result =>
                  Ok (ContentRange_Length result, store_into (Body result) out)
              | inl exception =>
                  Err (ErrorToStatus
                         ("When reading from '" ++ GetUrl client
                            ++ "' at position " ++ to_string position
                            ++ " for " ++ to_string clamped ++ " bytes: ")
                         exception)
              end,
              f, (net ++ [DownloadToCall (GetUrl client) position clamped])%list))
  /\ (ObjectInputFile.content_length_ f = 12 -> position = 10 -> nbytes = 100 ->
      forall result,
        DownloadTo client net 10 2 = inr result ->
        ContentRange_Length result = 2 ->
        ObjectInputFile.ReadAt 10 100 out f net
        = Some (Ok (2, store_into (Body result) out), f,
                (net ++ [DownloadToCall (GetUrl client) 10 2])%list)).
Proof.
  intros Hopen Hclient Hlen Hpos clamped.
  pose proof (ReadAt_spec f net position nbytes out Hopen Hlen Hpos) as Hread.
  fold clamped in Hread.
  split; [|split].
  - intros Hzero. rewrite Hread, Hzero. reflexivity.
  - intros Hnz. rewrite Hread.
    destruct (Z.eqb_spec clamped 0); [contradiction|].
    now apply download_spec.
  - intros H12 -> -> result Hstore Hcount.
    rewrite Hread. subst clamped. rewrite H12.
    change (Z.min 100 (12 - 10)) with 2. change (2 =? 0) with false. cbv iota.
    rewrite (download_spec f net client 10 2 out Hclient), Hstore, Hcount.
    reflexivity.
Qed.

Lemma in_int64_12 : in_int64 12.
Proof. unfold in_int64, int64_min, int64_max. split; discriminate. Defined.

Lemma ReadAt_clamps_witness :
  ObjectInputFile.ReadAt 10 100 [] (hello_file 100) []
  = Some (Ok (2, list_of_string "e!"), hello_file 100,
          [DownloadToCall (GetUrl (hello_client 100)) 10 2])
  /\ ObjectInputFile.ReadAt 12 1 [] (hello_file 100) []
     = Some (Ok (0, []), hello_file 100, [])
  /\ ObjectInputFile.ReadAt 0 5 [] (hello_file 3) []
     = Some (Ok (3, list_of_string "Hel"), hello_file 3,
             [DownloadToCall (GetUrl (hello_client 3)) 0 5]).
Proof.
  assert (Hpos10 : 0 <= 10 <= 12) by lia.
  assert (Hpos12 : 0 <= 12 <= 12) by lia.
  assert (Hpos0 : 0 <= 0 <= 12) by lia.
  split; [|split].
  - apply (proj2 (proj2 (ReadAt_clamps (hello_file 100) [] (hello_client 100)
                           10 100 [] eq_refl eq_refl in_int64_12 Hpos10))
             eq_refl eq_refl eq_refl
             {| ContentRange_Length := 2; Body := list_of_string "e!" |}
             eq_refl eq_refl).
  - apply (proj1 (ReadAt_clamps (hello_file 100) [] (hello_client 100)
                    12 1 [] eq_refl eq_refl in_int64_12 Hpos12)).
    reflexivity.
  - apply (proj1 (proj2 (ReadAt_clamps (hello_file 3) [] (hello_client 3)
                           0 5 [] eq_refl eq_refl in_int64_12 Hpos0))).
    discriminate.
Defined.

(** [ReadAt] never changes the handle. *)
Lemma ReadAt_frame (f f1 : ObjectInputFile.t) (net net' : list StoreCall)
    (position nbytes : Z) (out : Buffer) (r : Result (Z * Buffer)) :
  ObjectInputFile.ReadAt position nbytes out f net = Some (r, f1, net') -> f1 = f.
Proof.
  unfold ObjectInputFile.ReadAt, ObjectInputFile.download, bind, check, gets, ret.
  destruct (ObjectInputFile.CheckClosed "read" f); try (intros H; now inversion H).
  destruct (ObjectInputFile.CheckPosition position "read" f);
    try (intros H; now inversion H).
  destruct (_ =? 0); [intros H; now inversion H|].
  destruct (ObjectInputFile.blob_client_ f) as [client|]; [|discriminate].
  destruct (DownloadTo client net position _); intros H; now inversion H.
Qed.

Lemma Resize_size (new_size : Z) (b b' : Buffer) :
  Resize new_size b = Ok b' -> size b' = new_size /\ 0 <= new_size.
Proof.
  unfold Resize, size. destruct (Z.ltb_spec new_size 0); [discriminate|].
  intros E. injection E as <-.
  rewrite length_app, length_firstn, repeat_length. lia.
Qed.

Lemma AllocateResizableBuffer_ok (nbytes : Z) :
  0 <= nbytes ->
  AllocateResizableBuffer nbytes = Ok (repeat Byte.x00 (Z.to_nat nbytes)).
Proof.
  intros H. unfold AllocateResizableBuffer, Resize.
  destruct (Z.ltb_spec nbytes 0); [lia|].
  rewrite firstn_nil. simpl. now rewrite Nat.sub_0_r.
Qed.

Lemma AllocateResizableBuffer_negative (nbytes : Z) :
  nbytes < 0 ->
  AllocateResizableBuffer nbytes
  = Err (Invalid ("Negative buffer resize: " ++ to_string nbytes)).
Proof.
  intros H. unfold AllocateResizableBuffer, Resize.
  destruct (Z.ltb_spec nbytes 0); [reflexivity | lia].
Qed.

(** [Read] is [ReadAt] at the cursor, followed by the cursor update. *)
Lemma Read_spec (f : ObjectInputFile.t) (net : list StoreCall)
    (nbytes : Z) (out : Buffer) :
  ObjectInputFile.Read nbytes out f net
  = match ObjectInputFile.ReadAt (ObjectInputFile.pos_ f) nbytes out f net with
    | Some (Ok r, _, net') =>
        Some (Ok r,
              ObjectInputFile.set_pos_ (add64 (ObjectInputFile.pos_ f) (fst r)) f,
              net')
    | Some (Err e, _, net') => Some (Err e, f, net')
    | None => None
    end.
Proof.
  unfold ObjectInputFile.Read, bind, gets, modify, ret.
  destruct (ObjectInputFile.ReadAt (ObjectInputFile.pos_ f) nbytes out f net)
    as [[[[r|e] f1] net']|] eqn:E; [| |reflexivity].
  - now rewrite (ReadAt_frame _ _ _ _ _ _ _ _ E).
  - now rewrite (ReadAt_frame _ _ _ _ _ _ _ _ E).
Qed.

(** A successful [Read] returning a buffer: the clamp is not negative, the
    cursor moves by the size of the buffer, and that size is the count of
    the underlying [ReadAt], if one was needed. *)
Lemma Read_buffer_spec (f f' : ObjectInputFile.t) (net net' : list StoreCall)
    (nbytes : Z) (b : Buffer) :
  ObjectInputFile.closed_ f = false ->
  in_int64 (ObjectInputFile.content_length_ f) ->
  0 <= ObjectInputFile.pos_ f <= ObjectInputFile.content_length_ f ->
  ObjectInputFile.Read_buffer nbytes f net = Some (Ok b, f', net') ->
  let clamped :=
    Z.min nbytes (ObjectInputFile.content_length_ f - ObjectInputFile.pos_ f) in
  f' = ObjectInputFile.set_pos_ (add64 (ObjectInputFile.pos_ f) (size b)) f
  /\ ((clamped = 0 /\ b = [] /\ net' = net)
      \/ (0 < clamped
          /\ exists r out',
              ObjectInputFile.ReadAt (ObjectInputFile.pos_ f) clamped
                (repeat Byte.x00 (Z.to_nat clamped)) f net
              = Some (Ok (r, out'), f, net')
              /\ Resize r out' = Ok b
              /\ size b = r)).
Proof.
  intros Hopen Hlen Hpos. cbv zeta.
  unfold ObjectInputFile.Read_buffer, ObjectInputFile.ReadAt_buffer.
  unfold bind at 1 2 3 4 5 6. unfold gets at 1 2. unfold check at 1 2.
  unfold lift at 1, modify, ret.
  rewrite (CheckClosed_open "read" f Hopen), (CheckPosition_ok _ "read" f Hpos).
  rewrite (sub64_exact _ _ Hlen Hpos).
  set (clamped :=
         Z.min nbytes (ObjectInputFile.content_length_ f - ObjectInputFile.pos_ f)).
  destruct (Z.lt_ge_cases clamped 0) as [Hneg|Hnn].
  - rewrite (AllocateResizableBuffer_negative _ Hneg). discriminate.
  - rewrite (AllocateResizableBuffer_ok _ Hnn).
    rewrite Z.gtb_ltb. destruct (Z.ltb_spec 0 clamped) as [Hgt|Hle].
    + unfold bind, lift.
      destruct (ObjectInputFile.ReadAt (ObjectInputFile.pos_ f) clamped _ f net)
        as [[[[[r out']|e] f1] net1]|] eqn:E; try discriminate.
      pose proof (ReadAt_frame _ _ _ _ _ _ _ _ E) as ->.
      simpl fst. simpl snd.
      destruct (Resize r out') as [b0|e] eqn:Er; [|discriminate].
      intros H. injection H as <- <- <-.
      split; [reflexivity|]. right. split; [exact Hgt|].
      exists r, out'. repeat split; [exact Er | apply (Resize_size _ _ _ Er)].
    + assert (clamped = 0) as Hz by lia. rewrite Hz. simpl.
      intros H. injection H as <- <- <-.
      split; [reflexivity|]. left. repeat split.
Qed.

(** [ReadAt] returning a buffer never changes the handle either. *)
Lemma ReadAt_buffer_frame (f f1 : ObjectInputFile.t) (net net' : list StoreCall)
    (position nbytes : Z) (r : Result Buffer) :
  ObjectInputFile.ReadAt_buffer position nbytes f net = Some (r, f1, net') -> f1 = f.
Proof.
  unfold ObjectInputFile.ReadAt_buffer.
  unfold bind at 1 2 3 4. unfold check at 1 2. unfold gets at 1. unfold lift at 1.
  destruct (ObjectInputFile.CheckClosed "read" f);
    try (intros H; now inversion H).
  destruct (ObjectInputFile.CheckPosition position "read" f);
    try (intros H; now inversion H).
  destruct (AllocateResizableBuffer _) as [buffer|e]; [|intros H; now inversion H].
  destruct (_ >? 0); [|intros H; now inversion H].
  unfold bind, lift.
  destruct (ObjectInputFile.ReadAt position _ buffer f net)
    as [[[[x|e] f2] net2]|] eqn:E; [| |discriminate].
  - rewrite (ReadAt_frame _ _ _ _ _ _ _ _ E). intros H. now inversion H.
  - rewrite (ReadAt_frame _ _ _ _ _ _ _ _ E). intros H. now inversion H.
Qed.

(** A [Read] returning a buffer that fails leaves the handle, and so the
    cursor, as it was. *)
Lemma Read_buffer_failed (f f' : ObjectInputFile.t) (net net' : list StoreCall)
    (nbytes : Z) (e : Status) :
  ObjectInputFile.Read_buffer nbytes f net = Some (Err e, f', net') -> f' = f.
Proof.
  unfold ObjectInputFile.Read_buffer, bind, gets, modify, ret.
  destruct (ObjectInputFile.ReadAt_buffer (ObjectInputFile.pos_ f) nbytes f net)
    as [[[[b|e0] f1] net1]|] eqn:E; [discriminate| |discriminate].
  rewrite (ReadAt_buffer_frame _ _ _ _ _ _ _ E). intros H. now inversion H.
Qed.

(** *** Reads against a store that serves the object *)

Lemma slice_length (content : list byte) (from : Z) (count : nat) :
  0 <= from -> from + Z.of_nat count <= Z.of_nat (List.length content) ->
  List.length (slice content from count) = count.
Proof.
  intros Hfrom Hfit. unfold slice. rewrite length_firstn, length_skipn. lia.
Qed.

Lemma slice_app (content : list byte) (from : Z) (k t : nat) :
  0 <= from ->
  (slice content from k ++ slice content (from + Z.of_nat k) t)%list
  = slice content from (k + t).
Proof.
  intros Hfrom. unfold slice.
  replace (Z.to_nat (from + Z.of_nat k)) with (k + Z.to_nat from)%nat by lia.
  rewrite <- skipn_skipn.
  generalize (skipn (Z.to_nat from) content) as l. clear.
  induction k as [|k IH]; intros l; simpl; [reflexivity|].
  destruct l as [|x l]; simpl.
  - now rewrite firstn_nil.
  - now rewrite IH.
Qed.

Lemma store_into_empty (body : list byte) : store_into body [] = body.
Proof. unfold store_into. now rewrite skipn_nil, app_nil_r. Qed.

Lemma Resize_exact (body rest : list byte) :
  Resize (Z.of_nat (List.length body)) (body ++ rest)%list = Ok body.
Proof.
  unfold Resize. destruct (Z.ltb_spec (Z.of_nat (List.length body)) 0); [lia|].
  rewrite Nat2Z.id, firstn_app, firstn_all, Nat.sub_diag, firstn_O, app_nil_r.
  replace (List.length body - List.length (body ++ rest))%nat with 0%nat
    by (rewrite length_app; lia).
  simpl. now rewrite app_nil_r.
Qed.

Section Serving.

Variable content : list byte.
Variable client : BlobClient.
Hypothesis Hserves : serves content client.

Lemma reading_set_pos (f : ObjectInputFile.t) (position : Z) :
  reading_from content client f -> 0 <= position <= ObjectInputFile.content_length_ f ->
  reading_from content client (ObjectInputFile.set_pos_ position f).
Proof.
  intros (Hopen & Hclient & Hlen & Hfit & Hpos) Hnew.
  unfold reading_from. simpl. auto.
Qed.

Lemma add64_cursor (f : ObjectInputFile.t) (k : Z) :
  reading_from content client f ->
  0 <= k <= ObjectInputFile.content_length_ f - ObjectInputFile.pos_ f ->
  add64 (ObjectInputFile.pos_ f) k = ObjectInputFile.pos_ f + k.
Proof.
  intros (_ & _ & _ & Hfit & Hpos) Hk. unfold add64. apply wrap64_id.
  unfold in_int64, int64_min, int64_max in *. lia.
Qed.

(** One [Read(nbytes, out)]: some [k] bytes, no more than the clamp, come
    back; they are the object's bytes at the cursor, and the cursor moves
    by [k]. *)
Lemma Read_step (f : ObjectInputFile.t) (net : list StoreCall) (nbytes : Z) :
  reading_from content client f -> 0 <= nbytes ->
  exists (k : nat) (net' : list StoreCall),
    Z.of_nat k
    <= Z.min nbytes (ObjectInputFile.content_length_ f - ObjectInputFile.pos_ f)
    /\ ObjectInputFile.Read nbytes [] f net
       = Some (Ok (Z.of_nat k, slice content (ObjectInputFile.pos_ f) k),
               ObjectInputFile.set_pos_ (ObjectInputFile.pos_ f + Z.of_nat k) f,
               net').
Proof.
  intros Hf Hn. pose proof Hf as (Hopen & Hclient & Hlen & Hfit & Hpos).
  rewrite Read_spec, (ReadAt_spec f net _ nbytes [] Hopen Hfit Hpos).
  set (clamped :=
         Z.min nbytes (ObjectInputFile.content_length_ f - ObjectInputFile.pos_ f)).
  destruct (Z.eqb_spec clamped 0) as [Hz|Hnz].
  - exists 0%nat, net. split; [lia|].
    simpl fst. rewrite (add64_cursor f 0 Hf) by lia.
    unfold slice. reflexivity.
  - assert (0 < clamped) as Hgt by lia.
    destruct (Hserves net (ObjectInputFile.pos_ f) clamped) as (k & Hk & Hstore);
      [lia | exact Hgt | lia |].
    rewrite (download_spec f net client _ _ [] Hclient), Hstore.
    exists k. eexists. split; [exact Hk|].
    simpl fst. rewrite store_into_empty.
    rewrite (add64_cursor f (Z.of_nat k) Hf) by lia.
    reflexivity.
Qed.

(** One [Read(nbytes)] returning a buffer: the same bytes, as the
    buffer. *)
Lemma Read_buffer_step (f : ObjectInputFile.t) (net : list StoreCall) (nbytes : Z) :
  reading_from content client f -> 0 <= nbytes ->
  exists (k : nat) (net' : list StoreCall),
    Z.of_nat k
    <= Z.min nbytes (ObjectInputFile.content_length_ f - ObjectInputFile.pos_ f)
    /\ ObjectInputFile.Read_buffer nbytes f net
       = Some (Ok (slice content (ObjectInputFile.pos_ f) k),
               ObjectInputFile.set_pos_ (ObjectInputFile.pos_ f + Z.of_nat k) f,
               net').
Proof.
  intros Hf Hn. pose proof Hf as (Hopen & Hclient & Hlen & Hfit & Hpos).
  unfold ObjectInputFile.Read_buffer, ObjectInputFile.ReadAt_buffer.
  unfold bind at 1 2 3 4 5 6. unfold gets at 1 2. unfold check at 1 2.
  unfold lift at 1, modify, ret.
  rewrite (CheckClosed_open "read" f Hopen), (CheckPosition_ok _ "read" f Hpos).
  rewrite (sub64_exact _ _ Hfit Hpos).
  set (clamped :=
         Z.min nbytes (ObjectInputFile.content_length_ f - ObjectInputFile.pos_ f)).
  assert (0 <= clamped) as Hnn by lia.
  rewrite (AllocateResizableBuffer_ok _ Hnn).
  rewrite Z.gtb_ltb. destruct (Z.ltb_spec 0 clamped) as [Hgt|Hle].
  - unfold bind, lift.
    rewrite (ReadAt_spec f net _ clamped _ Hopen Hfit Hpos).
    replace (Z.min clamped
               (ObjectInputFile.content_length_ f - ObjectInputFile.pos_ f))
      with clamped by lia.
    destruct (Z.eqb_spec clamped 0); [lia|].
    destruct (Hserves net (ObjectInputFile.pos_ f) clamped) as (k & Hk & Hstore);
      [lia | exact Hgt | lia |].
    rewrite (download_spec f net client _ _ _ Hclient), Hstore.
    exists k. eexists. split; [exact Hk|].
    simpl fst. simpl snd. unfold store_into. simpl Body.
    assert (List.length (slice content (ObjectInputFile.pos_ f) k) = k) as Hlk
      by (apply slice_length; lia).
    rewrite <- Hlk at 1. rewrite Resize_exact.
    unfold size. rewrite Hlk.
    rewrite (add64_cursor f (Z.of_nat k) Hf) by lia.
    reflexivity.
  - assert (clamped = 0) as Hz by lia. rewrite Hz.
    exists 0%nat, net. split; [lia|].
    simpl. unfold bind. change (size []) with 0.
    rewrite (add64_cursor f 0 Hf) by lia.
    unfold slice. reflexivity.
Qed.

(** Any run of [Read(nbytes, out)] calls returns; the cursor ends at its
    start plus the counts returned, and the bytes handed over, put end to
    end, are the object's bytes from the start of the run on. *)
Lemma read_all_contiguous (requests : list Z) :
  Forall (fun nbytes => 0 <= nbytes) requests ->
  forall (f : ObjectInputFile.t) (net : list StoreCall),
    reading_from content client f ->
    exists rs f' net',
      read_all requests f net = Some (Ok rs, f', net')
      /\ reading_from content client f'
      /\ 0 <= total rs
      /\ ObjectInputFile.pos_ f' = ObjectInputFile.pos_ f + total rs
      /\ List.concat (map delivered rs)
         = slice content (ObjectInputFile.pos_ f) (Z.to_nat (total rs)).
Proof.
  induction 1 as [|nbytes rest Hn _ IH]; intros f net Hf.
  - exists [], f, net. simpl. repeat split; try lia; try apply Hf.
  - destruct (Read_step f net nbytes Hf Hn) as (k & net1 & Hk & Hread).
    pose proof Hf as (_ & _ & _ & _ & Hpos).
    assert (Hf1 : reading_from content client (ObjectInputFile.set_pos_
                             (ObjectInputFile.pos_ f + Z.of_nat k) f))
      by (apply reading_set_pos; [exact Hf | lia]).
    destruct (IH _ net1 Hf1) as (rs & f' & net' & Hrun & Hf' & Htot & Hcur & Hdata).
    simpl ObjectInputFile.pos_ in Hcur, Hdata.
    exists ((Z.of_nat k, slice content (ObjectInputFile.pos_ f) k) :: rs), f', net'.
    simpl read_all. unfold bind at 1. rewrite Hread.
    unfold bind at 1. rewrite Hrun. unfold ret.
    split; [reflexivity|]. split; [exact Hf'|].
    simpl total. simpl map. simpl List.concat.
    split; [lia|]. split; [lia|].
    rewrite Hdata. unfold delivered. simpl fst. simpl snd.
    rewrite Nat2Z.id.
    replace (firstn k (slice content (ObjectInputFile.pos_ f) k))
      with (slice content (ObjectInputFile.pos_ f) k)
      by (unfold slice; now rewrite firstn_firstn, Nat.min_id).
    rewrite slice_app by lia. f_equal. lia.
Qed.

(** The same for [Read(nbytes)] returning buffers. *)
Lemma read_all_buffers_contiguous (requests : list Z) :
  Forall (fun nbytes => 0 <= nbytes) requests ->
  forall (f : ObjectInputFile.t) (net : list StoreCall),
    reading_from content client f ->
    exists bs f' net',
      read_all_buffers requests f net = Some (Ok bs, f', net')
      /\ reading_from content client f'
      /\ ObjectInputFile.pos_ f'
         = ObjectInputFile.pos_ f + Z.of_nat (List.length (List.concat bs))
      /\ List.concat bs
         = slice content (ObjectInputFile.pos_ f) (List.length (List.concat bs)).
Proof.
  induction 1 as [|nbytes rest Hn _ IH]; intros f net Hf.
  - exists [], f, net. simpl. repeat split; try lia; try apply Hf.
  - destruct (Read_buffer_step f net nbytes Hf Hn) as (k & net1 & Hk & Hread).
    pose proof Hf as (_ & _ & _ & _ & Hpos).
    assert (Hf1 : reading_from content client (ObjectInputFile.set_pos_
                             (ObjectInputFile.pos_ f + Z.of_nat k) f))
      by (apply reading_set_pos; [exact Hf | lia]).
    destruct (IH _ net1 Hf1) as (bs & f' & net' & Hrun & Hf' & Hcur & Hdata).
    simpl ObjectInputFile.pos_ in Hcur, Hdata.
    exists (slice content (ObjectInputFile.pos_ f) k :: bs), f', net'.
    simpl read_all_buffers. unfold bind at 1. rewrite Hread.
    unfold bind at 1. rewrite Hrun. unfold ret.
    split; [reflexivity|]. split; [exact Hf'|].
    assert (List.length (slice content (ObjectInputFile.pos_ f) k) = k) as Hlk.
    { apply slice_length; [lia|]. destruct Hf as (_ & _ & <- & _). lia. }
    simpl List.concat. rewrite length_app, Hlk.
    split; [lia|].
    rewrite Hdata at 1. now rewrite slice_app by lia.
Qed.

End Serving.

Lemma firstn_min_length {A} (n : nat) (l : list A) :
  firstn (Nat.min n (List.length l)) l = firstn n l.
Proof.
  destruct (Nat.le_ge_cases n (List.length l)) as [H|H].
  - now rewrite Nat.min_l.
  - rewrite Nat.min_r by exact H. now rewrite !firstn_all2 by lia.
Qed.

(** The capped store serves its object, whatever the cap. *)
Lemma capped_blob_serves (url : string) (content : list byte)
    (metadata : list (string * string)) (cap : nat) :
  serves content (capped_blob url content metadata cap).
Proof.
  intros net offset length Hoff Hlen Hfit. simpl.
  set (want := Nat.min cap (Z.to_nat length)).
  set (rest := skipn (Z.to_nat offset) content).
  exists (List.length (firstn want rest)). split.
  - rewrite length_firstn. unfold want. lia.
  - unfold slice. fold rest. rewrite length_firstn, firstn_min_length. reflexivity.
Qed.

(** C2.  On an initialised, open handle whose cursor is valid, for any
    store: [Read nbytes out] is [ReadAt] at the cursor; when that delivers
    [r] bytes the cursor moves by [r] (the handle is otherwise unchanged)
    and when it fails the cursor stays; a successful [Read nbytes]
    returning a buffer moves the cursor by the size of the buffer, which is
    the count of the underlying [ReadAt], and a failed one leaves the
    handle, cursor included, as it was.  Hence, against any store that
    serves the object, possibly in short pieces, every run of reads of
    either kind returns, leaves the cursor at its start plus the bytes
    delivered, and the pieces delivered put end to end are exactly the
    object's bytes from the start of the run: none skipped, none read
    twice. *)
Theorem Read_advances_by_delivered
    (f : ObjectInputFile.t) (net : list StoreCall) (nbytes : Z) (out : Buffer) :
  ObjectInputFile.closed_ f = false ->
  in_int64 (ObjectInputFile.content_length_ f) ->
  0 <= ObjectInputFile.pos_ f <= ObjectInputFile.content_length_ f ->
  (forall r out' f1 net',
      ObjectInputFile.ReadAt (ObjectInputFile.pos_ f) nbytes out f net
      = Some (Ok (r, out'), f1, net') ->
      ObjectInputFile.Read nbytes out f net
      = Some (Ok (r, out'),
              ObjectInputFile.set_pos_ (add64 (ObjectInputFile.pos_ f) r) f, net')
      /\ (in_int64 (ObjectInputFile.pos_ f + r) ->
          add64 (ObjectInputFile.pos_ f) r = ObjectInputFile.pos_ f + r))
  /\ (forall e f1 net',
         ObjectInputFile.ReadAt (ObjectInputFile.pos_ f) nbytes out f net
         = Some (Err e, f1, net') ->
         ObjectInputFile.Read nbytes out f net = Some (Err e, f, net'))
  /\ (forall b f' net',
         ObjectInputFile.Read_buffer nbytes f net = Some (Ok b, f', net') ->
         let clamped :=
           Z.min nbytes
             (ObjectInputFile.content_length_ f - ObjectInputFile.pos_ f) in
         f' = ObjectInputFile.set_pos_ (add64 (ObjectInputFile.pos_ f) (size b)) f
         /\ (in_int64 (ObjectInputFile.pos_ f + size b) ->
             ObjectInputFile.pos_ f' = ObjectInputFile.pos_ f + size b)
         /\ ((clamped = 0 /\ b = [] /\ net' = net)
             \/ (0 < clamped
                 /\ exists r out',
                     ObjectInputFile.ReadAt (ObjectInputFile.pos_ f) clamped
                       (repeat Byte.x00 (Z.to_nat clamped)) f net
                     = Some (Ok (r, out'), f, net')
                     /\ Resize r out' = Ok b
                     /\ size b = r)))
  /\ (forall e f' net',
         ObjectInputFile.Read_buffer nbytes f net = Some (Err e, f', net') ->
         f' = f)
  /\ (forall (content : list byte) (client : BlobClient) (requests : list Z),
         serves content client ->
         ObjectInputFile.blob_client_ f = Some client ->
         ObjectInputFile.content_length_ f = Z.of_nat (List.length content) ->
         Forall (fun n => 0 <= n) requests ->
         (exists rs f' net',
             read_all requests f net = Some (Ok rs, f', net')
             /\ ObjectInputFile.pos_ f' = ObjectInputFile.pos_ f + total rs
             /\ List.concat (map delivered rs)
                = slice content (ObjectInputFile.pos_ f) (Z.to_nat (total rs)))
         /\ (exists bs f' net',
                read_all_buffers requests f net = Some (Ok bs, f', net')
                /\ ObjectInputFile.pos_ f'
                   = ObjectInputFile.pos_ f + Z.of_nat (List.length (List.concat bs))
                /\ List.concat bs
                   = slice content (ObjectInputFile.pos_ f)
                       (List.length (List.concat bs)))).
Proof.
  intros Hopen Hfit Hpos. split; [|split; [|split; [|split]]].
  - intros r out' f1 net' Hat. rewrite Read_spec, Hat. split; [reflexivity|].
    intros Hin. now apply wrap64_id.
  - intros e f1 net' Hat. now rewrite Read_spec, Hat.
  - intros b f' net' Hread clamped.
    destruct (Read_buffer_spec f f' net net' nbytes b Hopen Hfit Hpos Hread)
      as [Hf' Hcases].
    split; [exact Hf'|]. split; [|exact Hcases].
    intros Hin. rewrite Hf'. simpl. now apply wrap64_id.
  - intros e f' net'. apply Read_buffer_failed.
  - intros content client requests Hserves Hclient Hlen Hreq.
    assert (Hf : reading_from content client f) by (unfold reading_from; auto).
    split.
    + destruct (read_all_contiguous content client Hserves requests Hreq f net Hf)
        as (rs & f' & net' & Hrun & _ & _ & Hcur & Hdata).
      exists rs, f', net'. auto.
    + destruct (read_all_buffers_contiguous content client Hserves requests Hreq
                  f net Hf)
        as (bs & f' & net' & Hrun & _ & Hcur & Hdata).
      exists bs, f', net'. auto.
Qed.

Lemma Read_advances_by_delivered_witness :
  ObjectInputFile.Read 5 [] (hello_file 3) []
  = Some (Ok (3, list_of_string "Hel"),
          ObjectInputFile.set_pos_ (add64 0 3) (hello_file 3),
          [DownloadToCall (GetUrl (hello_client 3)) 0 5])
  /\ ObjectInputFile.set_pos_ 3 (hello_file 3)
     = ObjectInputFile.set_pos_ (add64 0 (size (list_of_string "Hel"))) (hello_file 3)
  /\ (ObjectInputFile.Read_buffer 5 hello_file_unreachable []
      = Some (Err (IOError
                     "When reading from 'http://store/c/b' at position 4 for 5 bytes:  Azure Error: ServerBusy"),
              hello_file_unreachable, [DownloadToCall "http://store/c/b" 4 5])
      /\ forall e f' net',
          ObjectInputFile.Read_buffer 5 hello_file_unreachable []
          = Some (Err e, f', net') ->
          ObjectInputFile.pos_ f' = 4)
  /\ (exists rs f' net',
         read_all [5; 5] (hello_file 3) [] = Some (Ok rs, f', net')
         /\ ObjectInputFile.pos_ f' = 0 + total rs
         /\ List.concat (map delivered rs) = slice hello 0 (Z.to_nat (total rs)))
  /\ (exists bs f' net',
         read_all_buffers [5; 5] (hello_file 3) [] = Some (Ok bs, f', net')
         /\ ObjectInputFile.pos_ f' = 0 + Z.of_nat (List.length (List.concat bs))
         /\ List.concat bs = slice hello 0 (List.length (List.concat bs))).
Proof.
  assert (Hpos : 0 <= 0 <= 12) by lia.
  assert (Hpos4 : 0 <= 4 <= 12) by lia.
  pose proof (Read_advances_by_delivered (hello_file 3) [] 5 []
                eq_refl in_int64_12 Hpos) as (Hread & _ & Hbuffer & _ & Hrun).
  pose proof (Read_advances_by_delivered hello_file_unreachable [] 5 []
                eq_refl in_int64_12 Hpos4) as (_ & _ & _ & Hfailed & _).
  split; [|split; [|split]].
  - apply (Hread 3 (list_of_string "Hel") (hello_file 3)
             [DownloadToCall (GetUrl (hello_client 3)) 0 5]).
    reflexivity.
  - apply (Hbuffer (list_of_string "Hel") (ObjectInputFile.set_pos_ 3 (hello_file 3))
             [DownloadToCall (GetUrl (hello_client 3)) 0 5]).
    reflexivity.
  - split; [reflexivity|].
    intros e f' net' Hrun'. now rewrite (Hfailed e f' net' Hrun').
  - apply (Hrun hello (hello_client 3) [5; 5]
             (capped_blob_serves _ _ _ _) eq_refl eq_refl).
    repeat constructor; lia.
Defined.

(** ** Opening a file *)

Lemma ValidateFilePath_spec (path : AzurePath.t) :
  (AzurePath.container path = "" ->
   ValidateFilePath path = PathNotFoundError (AzurePath.full_path path))
  /\ (AzurePath.container path <> "" -> AzurePath.path_to_file path = "" ->
      ValidateFilePath path = NotAFileError (AzurePath.full_path path))
  /\ (AzurePath.container path <> "" -> AzurePath.path_to_file path <> "" ->
      ValidateFilePath path = OK).
Proof.
  unfold ValidateFilePath, PathNotFound, NotAFile,
    internal.PathNotFound, internal.NotAFile.
  destruct (AzurePath.container path), (AzurePath.path_to_file path);
    simpl; repeat split; congruence.
Qed.

(** [OpenInputFile] once the string has passed the trailing-separator
    assertion and the parser. *)
Lemma OpenInputFile_parsed
    (impl : Impl.t) (net : list StoreCall) (s : string) (path : AzurePath.t) :
  internal.AssertNoTrailingSlash s = OK ->
  AzurePath.FromString s = Ok path ->
  Impl.OpenInputFile s impl net
  = match ValidateFilePath path with
    | OK =>
        bind (Impl.make_blob_client path)
          (fun blob_client =>
             Impl.init_handle (ObjectInputFile.make blob_client path kNoSize))
          impl net
    | e => Some (Err e, impl, net)
    end.
Proof.
  intros Hslash Hparse. unfold Impl.OpenInputFile.
  unfold bind at 1 2 3. unfold check, lift. rewrite Hslash, Hparse.
  now destruct (ValidateFilePath path).
Qed.

Lemma AssertNoTrailingSlash_spec (s : string) :
  (internal.HasTrailingSlash s = false -> internal.AssertNoTrailingSlash s = OK)
  /\ (internal.HasTrailingSlash s = true ->
      internal.AssertNoTrailingSlash s = NotAFileError s).
Proof.
  unfold internal.AssertNoTrailingSlash, internal.NotAFile.
  destruct (internal.HasTrailingSlash s); split; congruence.
Qed.

(** C6, as amended.  For every address, [ValidateFilePath] answers
    path-not-found when the container is empty, not-a-file when the
    container is there and the path is empty, and OK otherwise.
    [OpenInputFile], given a string that does not end in a separator and
    parses to an address failing the check, returns that error with nothing
    sent to the store; given a string that ends in a separator it returns
    not-a-file for the string as given, before parsing it and again with
    nothing sent; and whenever a run of [OpenInputFile] did send something
    to the store, the string had parsed to an address with both components
    present. *)
Theorem OpenInputFile_validates_before_store
    (impl : Impl.t) (net : list StoreCall) :
  (forall path : AzurePath.t,
      (AzurePath.container path = "" ->
       ValidateFilePath path = PathNotFoundError (AzurePath.full_path path))
      /\ (AzurePath.container path <> "" -> AzurePath.path_to_file path = "" ->
          ValidateFilePath path = NotAFileError (AzurePath.full_path path))
      /\ (AzurePath.container path <> "" -> AzurePath.path_to_file path <> "" ->
          ValidateFilePath path = OK))
  /\ (forall (s : string) (path : AzurePath.t),
         internal.HasTrailingSlash s = false ->
         AzurePath.FromString s = Ok path ->
         (AzurePath.container path = "" ->
          Impl.OpenInputFile s impl net
          = Some (Err (PathNotFoundError (AzurePath.full_path path)), impl, net))
         /\ (AzurePath.container path <> "" -> AzurePath.path_to_file path = "" ->
             Impl.OpenInputFile s impl net
             = Some (Err (NotAFileError (AzurePath.full_path path)), impl, net)))
  /\ (forall s : string,
         internal.HasTrailingSlash s = true ->
         Impl.OpenInputFile s impl net = Some (Err (NotAFileError s), impl, net))
  /\ (forall (s : string) r impl' net',
         Impl.OpenInputFile s impl net = Some (r, impl', net') ->
         net' <> net ->
         exists path,
           AzurePath.FromString s = Ok path
           /\ AzurePath.container path <> ""
           /\ AzurePath.path_to_file path <> "").
Proof.
  split; [exact ValidateFilePath_spec|]. split; [|split].
  - intros s path Hslash Hparse.
    apply (proj1 (AssertNoTrailingSlash_spec s)) in Hslash.
    destruct (ValidateFilePath_spec path) as (Hnf & Hnaf & _).
    rewrite (OpenInputFile_parsed impl net s path Hslash Hparse).
    split.
    + intros Hc. now rewrite (Hnf Hc).
    + intros Hc Hp. now rewrite (Hnaf Hc Hp).
  - intros s Hslash.
    apply (proj2 (AssertNoTrailingSlash_spec s)) in Hslash.
    unfold Impl.OpenInputFile, bind, check. now rewrite Hslash.
  - intros s r impl' net' Hrun Hsent.
    destruct (internal.AssertNoTrailingSlash s) eqn:Hslash;
      try (unfold Impl.OpenInputFile, bind, check in Hrun;
           rewrite Hslash in Hrun; inversion Hrun; congruence).
    destruct (AzurePath.FromString s) as [path|e] eqn:Hparse.
    2:{ unfold Impl.OpenInputFile in Hrun. unfold bind at 1 2 in Hrun.
        unfold check, lift in Hrun. rewrite Hslash, Hparse in Hrun.
        inversion Hrun. congruence. }
    exists path. split; [reflexivity|].
    rewrite (OpenInputFile_parsed impl net s path Hslash Hparse) in Hrun.
    destruct (ValidateFilePath_spec path) as (Hnf & Hnaf & _).
    destruct (string_dec (AzurePath.container path) "") as [Hc|Hc].
    { rewrite (Hnf Hc) in Hrun. inversion Hrun. congruence. }
    destruct (string_dec (AzurePath.path_to_file path) "") as [Hp|Hp].
    { rewrite (Hnaf Hc Hp) in Hrun. inversion Hrun. congruence. }
    auto.
Qed.

Lemma OpenInputFile_validates_before_store_witness :
  Impl.OpenInputFile "" hello_impl []
  = Some (Err (PathNotFoundError ""), hello_impl, [])
  /\ Impl.OpenInputFile "container" hello_impl []
     = Some (Err (NotAFileError "container"), hello_impl, [])
  /\ Impl.OpenInputFile "container/dir/" hello_impl []
     = Some (Err (NotAFileError "container/dir/"), hello_impl, [])
  /\ exists path,
      AzurePath.FromString "sample-container/sample-blob.txt" = Ok path
      /\ AzurePath.container path <> ""
      /\ AzurePath.path_to_file path <> "".
Proof.
  pose proof (OpenInputFile_validates_before_store hello_impl [])
    as (_ & Hlocal & Hslash & Hsent).
  split; [|split; [|split]].
  - apply (proj1 (Hlocal "" _ eq_refl eq_refl)). reflexivity.
  - apply (proj2 (Hlocal "container" _ eq_refl eq_refl));
      [discriminate | reflexivity].
  - apply (Hslash "container/dir/"). reflexivity.
  - apply (Hsent "sample-container/sample-blob.txt"
             (Ok (hello_file 100)) hello_impl
             [GetPropertiesCall (GetUrl (hello_client 100))]);
      [reflexivity | discriminate].
Defined.

(** C6, as first stated, fails: the strings "" and "/" resolve to the same
    address, with an empty container, yet opening "/" returns not-a-file,
    not path-not-found, because the string ends in a separator; what
    opening returns is not decided by the resolved address alone. *)
Lemma OpenInputFile_separator_is_not_a_file :
  AzurePath.FromString "/" = AzurePath.FromString ""
  /\ AzurePath.FromString "/"
     = Ok {| AzurePath.full_path := ""; AzurePath.container := "";
             AzurePath.path_to_file := ""; AzurePath.path_to_file_parts := [] |}
  /\ Impl.OpenInputFile "" hello_impl []
     = Some (Err (PathNotFoundError ""), hello_impl, [])
  /\ Impl.OpenInputFile "/" hello_impl []
     = Some (Err (NotAFileError "/"), hello_impl, [])
  /\ ~ (forall (s : string) (path : AzurePath.t),
          AzurePath.FromString s = Ok path ->
          AzurePath.container path = "" ->
          Impl.OpenInputFile s hello_impl []
          = Some (Err (PathNotFoundError (AzurePath.full_path path)),
                  hello_impl, [])).
Proof.
  do 4 (split; [reflexivity|]).
  intros Hall. specialize (Hall "/" _ eq_refl eq_refl). discriminate Hall.
Qed.

(** The overload taking a [FileInfo] runs the same address check before it
    builds a client: a run that sent something to the store parsed an
    address with both components present. *)
Lemma OpenInputFile_info_validates_before_store
    (impl impl' : Impl.t) (net net' : list StoreCall) (info : FileInfo)
    (r : Result ObjectInputFile.t) :
  Impl.OpenInputFile_info info impl net = Some (r, impl', net') ->
  net' <> net ->
  exists path,
    AzurePath.FromString (info_path info) = Ok path
    /\ AzurePath.container path <> ""
    /\ AzurePath.path_to_file path <> "".
Proof.
  unfold Impl.OpenInputFile_info. unfold bind at 1. unfold check at 1.
  destruct (internal.AssertNoTrailingSlash (info_path info));
    try (intros H; inversion H; congruence).
  destruct (Impl.FileType_eqb (info_type info) FileType_NotFound);
    [unfold raise; intros H; inversion H; congruence|].
  destruct (negb _ && negb _);
    [unfold raise; intros H; inversion H; congruence|].
  unfold bind at 1. unfold lift.
  destruct (AzurePath.FromString (info_path info)) as [path|e];
    [|intros H; inversion H; congruence].
  unfold bind at 1. unfold check.
  destruct (ValidateFilePath_spec path) as (Hnf & Hnaf & _).
  destruct (string_dec (AzurePath.container path) "") as [Hc|Hc].
  { rewrite (Hnf Hc). intros H. inversion H. congruence. }
  destruct (string_dec (AzurePath.path_to_file path) "") as [Hp|Hp].
  { rewrite (Hnaf Hc Hp). intros H. inversion H. congruence. }
  intros _ _. exists path. auto.
Qed.

(** A handle handed out by [OpenInputFile] is open, holds its client and
    has its cursor at 0. *)
Lemma OpenInputFile_ready
    (impl impl' : Impl.t) (net net' : list StoreCall) (s : string)
    (f : ObjectInputFile.t) :
  Impl.OpenInputFile s impl net = Some (Ok f, impl', net') ->
  ObjectInputFile.closed_ f = false
  /\ (exists client, ObjectInputFile.blob_client_ f = Some client)
  /\ ObjectInputFile.pos_ f = 0.
Proof.
  unfold Impl.OpenInputFile. unfold bind at 1. unfold check at 1.
  destruct (internal.AssertNoTrailingSlash s); try discriminate.
  unfold bind at 1. unfold lift.
  destruct (AzurePath.FromString s) as [path|e]; [|discriminate].
  unfold bind at 1. unfold check.
  destruct (ValidateFilePath path); try discriminate.
  unfold bind, Impl.make_blob_client, Impl.init_handle.
  destruct (Impl.service_client_ impl) as [service|]; [|discriminate].
  unfold ObjectInputFile.Init, ObjectInputFile.make. simpl.
  destruct (GetProperties _ net) as [exception|properties].
  - destruct (StatusCode exception =? HttpStatusCode_NotFound); discriminate.
  - intros H. injection H as <- _ _. simpl. eauto.
Qed.

(** ** AzureOptions *)

Lemma AzureCredentialsKind_eqb_eq (a b : AzureCredentialsKind) :
  AzureCredentialsKind_eqb a b = true <-> a = b.
Proof. destruct a, b; simpl; split; congruence. Qed.

(** C8.  [Equals] holds exactly when the two URLs and the credentials kind
    agree.  The credential handle plays no part: options that agree on
    those three and hold different credentials are equal, as are the
    options [ConfigureAccountKeyCredentials] builds for one account name
    from two different keys. *)
Theorem AzureOptions_Equals_shallow (a b : AzureOptions.t) :
  (AzureOptions.Equals a b = true
   <-> AzureOptions.account_dfs_url a = AzureOptions.account_dfs_url b
       /\ AzureOptions.account_blob_url a = AzureOptions.account_blob_url b
       /\ AzureOptions.credentials_kind a = AzureOptions.credentials_kind b)
  /\ (AzureOptions.account_dfs_url a = AzureOptions.account_dfs_url b ->
      AzureOptions.account_blob_url a = AzureOptions.account_blob_url b ->
      AzureOptions.credentials_kind a = AzureOptions.credentials_kind b ->
      AzureOptions.storage_credentials_provider a
      <> AzureOptions.storage_credentials_provider b ->
      AzureOptions.Equals a b = true)
  /\ (forall account_name key1 key2 : string,
         key1 <> key2 ->
         let a' := snd (AzureOptions.ConfigureAccountKeyCredentials account_name key1 a) in
         let b' := snd (AzureOptions.ConfigureAccountKeyCredentials account_name key2 a) in
         AzureOptions.storage_credentials_provider a'
         <> AzureOptions.storage_credentials_provider b'
         /\ AzureOptions.Equals a' b' = true).
Proof.
  assert (Hiff : forall x y,
             AzureOptions.Equals x y = true
             <-> AzureOptions.account_dfs_url x = AzureOptions.account_dfs_url y
                 /\ AzureOptions.account_blob_url x = AzureOptions.account_blob_url y
                 /\ AzureOptions.credentials_kind x = AzureOptions.credentials_kind y).
  { intros x y. unfold AzureOptions.Equals.
    rewrite !andb_true_iff, !String.eqb_eq, AzureCredentialsKind_eqb_eq. tauto. }
  split; [apply Hiff|]. split.
  - intros Hd Hb Hk _. apply Hiff. auto.
  - intros account_name key1 key2 Hkeys a' b'. split.
    + unfold a', b'. simpl. congruence.
    + apply Hiff. unfold a', b'. simpl. auto.
Qed.

Lemma AzureOptions_Equals_shallow_witness :
  AzureOptions.Equals
    {| AzureOptions.account_dfs_url := "http://127.0.0.1:10000/devstoreaccount1/";
       AzureOptions.account_blob_url := "http://127.0.0.1:10000/devstoreaccount1/";
       AzureOptions.backend := Azurite;
       AzureOptions.credentials_kind := StorageCredentials;
       AzureOptions.storage_credentials_provider :=
         Some {| AccountName := "devstoreaccount1"; AccountKey := "key-one" |} |}
    {| AzureOptions.account_dfs_url := "http://127.0.0.1:10000/devstoreaccount1/";
       AzureOptions.account_blob_url := "http://127.0.0.1:10000/devstoreaccount1/";
       AzureOptions.backend := Azurite;
       AzureOptions.credentials_kind := StorageCredentials;
       AzureOptions.storage_credentials_provider :=
         Some {| AccountName := "devstoreaccount1"; AccountKey := "key-two" |} |}
  = true.
Proof.
  apply (proj1 (proj2 (AzureOptions_Equals_shallow _ _)));
    solve [reflexivity | discriminate].
Defined.

(* ===================================================================== *)
(** * Runs of the model *)

(** The strings of the parser's own comment, and the rejections. *)
Example parse_testcontainer :
  AzurePath.FromString "testcontainer/testdir/testfile.txt"
  = Ok {| AzurePath.full_path := "testcontainer/testdir/testfile.txt";
          AzurePath.container := "testcontainer";
          AzurePath.path_to_file := "testdir/testfile.txt";
          AzurePath.path_to_file_parts := ["testdir"; "testfile.txt"] |}.
Proof. reflexivity. Qed.

Example parse_uri :
  AzurePath.FromString "https://x/y"
  = Err (Invalid
           "Expected an Azure object path of the form 'container/path...', got a URI: 'https://x/y'").
Proof. reflexivity. Qed.

Example parse_leading_separator :
  AzurePath.FromString "/a/b"
  = Err (Invalid "Path cannot start with a separator ('/a/b')").
Proof. reflexivity. Qed.

Example parse_empty_segment :
  AzurePath.FromString "c/a//b"
  = Err (Invalid "Empty path component in path c/a//b").
Proof. reflexivity. Qed.

(** Opening the 12-byte object of the upload test: one property fetch, and
    the handle knows its length and metadata. *)
Example open_hello :
  Impl.OpenInputFile "sample-container/sample-blob.txt" hello_impl []
  = Some (Ok (hello_file 100), hello_impl,
          [GetPropertiesCall (GetUrl (hello_client 100))]).
Proof. reflexivity. Qed.

Example open_with_known_size :
  Impl.OpenInputFile_info
    {| info_path := "sample-container/sample-blob.txt";
       info_type := FileType_File; info_size := 12 |} hello_impl []
  = Some (Ok (ObjectInputFile.make (hello_client 100) hello_path 12), hello_impl, []).
Proof. reflexivity. Qed.

Example read_past_end :
  ObjectInputFile.ReadAt 15 1 [] (hello_file 100) []
  = Some (Err (IOError "Cannot read past end of file"), hello_file 100, []).
Proof. reflexivity. Qed.

Example seek_to_end_then_read :
  bind (ObjectInputFile.Seek 12) (fun _ => ObjectInputFile.Read 1 [])
    (hello_file 100) []
  = Some (Ok (0, []), ObjectInputFile.set_pos_ 12 (hello_file 100), []).
Proof. reflexivity. Qed.

Example two_short_reads :
  read_all [5; 5] (hello_file 3) []
  = Some (Ok [(3, list_of_string "Hel"); (3, list_of_string "lo ")],
          ObjectInputFile.set_pos_ 6 (hello_file 3),
          [DownloadToCall (GetUrl (hello_client 3)) 0 5;
           DownloadToCall (GetUrl (hello_client 3)) 3 5]).
Proof. reflexivity. Qed.

Example two_short_buffer_reads :
  read_all_buffers [5; 5] (hello_file 3) []
  = Some (Ok [list_of_string "Hel"; list_of_string "lo "],
          ObjectInputFile.set_pos_ 6 (hello_file 3),
          [DownloadToCall (GetUrl (hello_client 3)) 0 5;
           DownloadToCall (GetUrl (hello_client 3)) 3 5]).
Proof. reflexivity. Qed.

Example read_failure_message :
  ObjectInputFile.ReadAt 3 4 []
    (ObjectInputFile.make
       (failing_blob "http://store/c/b" {| StatusCode := 503; what := "ServerBusy" |})
       hello_path 12) []
  = Some (Err (IOError
                 "When reading from 'http://store/c/b' at position 3 for 4 bytes:  Azure Error: ServerBusy"),
          ObjectInputFile.make
            (failing_blob "http://store/c/b" {| StatusCode := 503; what := "ServerBusy" |})
            hello_path 12,
          [DownloadToCall "http://store/c/b" 3 4]).
Proof. reflexivity. Qed.

(* ===================================================================== *)
(** * Further properties *)

(** ** AzureOptions *)

(** X1.  [Equals] is an equivalence on options: every options object
    equals itself (what the [OptionsCompare] test checks), the order of the
    two operands does not matter, and equality carries over a middle
    operand. *)
Theorem AzureOptions_Equals_equivalence :
  (forall a, AzureOptions.Equals a a = true)
  /\ (forall a b, AzureOptions.Equals a b = AzureOptions.Equals b a)
  /\ (forall a b c,
         AzureOptions.Equals a b = true -> AzureOptions.Equals b c = true ->
         AzureOptions.Equals a c = true).
Proof.
  unfold AzureOptions.Equals. split; [|split].
  - intros a. rewrite !String.eqb_refl.
    now destruct (AzureOptions.credentials_kind a).
  - intros a b.
    rewrite (String.eqb_sym (AzureOptions.account_dfs_url a)),
      (String.eqb_sym (AzureOptions.account_blob_url a)).
    now destruct (AzureOptions.credentials_kind a), (AzureOptions.credentials_kind b).
  - intros a b c.
    rewrite !andb_true_iff, !String.eqb_eq, !AzureCredentialsKind_eqb_eq.
    intros ((-> & ->) & ->) ((-> & ->) & ->). auto.
Qed.

Lemma AzureOptions_Equals_equivalence_witness :
  AzureOptions.Equals (Impl.options_ hello_impl)
    (snd (AzureOptions.ConfigureAccountKeyCredentials "devstoreaccount1" "other"
            (Impl.options_ hello_impl)))
  = true.
Proof.
  apply (proj2 (proj2 AzureOptions_Equals_equivalence)
           _ (Impl.options_ hello_impl) _);
    [apply (proj1 AzureOptions_Equals_equivalence) | reflexivity].
Defined.

Lemma append_inj_l (a x y : string) : a ++ x = a ++ y -> x = y.
Proof. induction a as [|c a IH]; simpl; [easy|]. intros H. injection H as H. auto. Qed.

Lemma append_inj_r (s x y : string) : x ++ s = y ++ s -> x = y.
Proof.
  revert y. induction x as [|c x IH]; intros [|d y] H; simpl in H.
  - reflexivity.
  - apply (f_equal String.length) in H. simpl in H. rewrite length_append in H. lia.
  - apply (f_equal String.length) in H. simpl in H. rewrite length_append in H. lia.
  - injection H as -> H. f_equal. now apply IH.
Qed.

(** X2.  [ConfigureAccountKeyCredentials] always returns OK, keeps the
    backend, selects the [StorageCredentials] kind and stores the name and
    key as the credential; nothing of the URLs, kind or credential held
    before survives, so of two calls in a row the last one decides.  For the
    Azurite backend both URLs are the same loopback URL. *)
Theorem ConfigureAccountKeyCredentials_overwrites
    (o : AzureOptions.t) (name key name' key' : string) :
  let r := AzureOptions.ConfigureAccountKeyCredentials name key o in
  fst r = OK
  /\ AzureOptions.backend (snd r) = AzureOptions.backend o
  /\ AzureOptions.credentials_kind (snd r) = StorageCredentials
  /\ AzureOptions.storage_credentials_provider (snd r)
     = Some {| AccountName := name; AccountKey := key |}
  /\ AzureOptions.ConfigureAccountKeyCredentials name key
       (snd (AzureOptions.ConfigureAccountKeyCredentials name' key' o))
     = r
  /\ (AzureOptions.backend o = Azurite ->
      AzureOptions.account_dfs_url (snd r) = AzureOptions.account_blob_url (snd r)
      /\ AzureOptions.account_blob_url (snd r)
         = "http://127.0.0.1:10000/" ++ name ++ "/").
Proof.
  unfold AzureOptions.ConfigureAccountKeyCredentials. simpl.
  do 5 (split; [reflexivity|]).
  intros Hb. rewrite Hb. split; reflexivity.
Qed.

Lemma ConfigureAccountKeyCredentials_overwrites_witness :
  AzureOptions.account_blob_url
    (snd (AzureOptions.ConfigureAccountKeyCredentials "devstoreaccount1" "k"
            (Impl.options_ hello_impl)))
  = "http://127.0.0.1:10000/devstoreaccount1/".
Proof.
  apply (proj2 (proj2 (proj2 (proj2 (proj2
           (ConfigureAccountKeyCredentials_overwrites
              (Impl.options_ hello_impl) "devstoreaccount1" "k" "" "")))))
           eq_refl).
Defined.

(** X3.  Two options configured with account keys on the same backend are
    equal exactly when the account names are the same, whatever the keys
    and whatever was configured before; configured on different backends
    they are never equal. *)
Theorem ConfigureAccountKeyCredentials_Equals
    (o1 o2 : AzureOptions.t) (name1 key1 name2 key2 : string) :
  let a := snd (AzureOptions.ConfigureAccountKeyCredentials name1 key1 o1) in
  let b := snd (AzureOptions.ConfigureAccountKeyCredentials name2 key2 o2) in
  (AzureOptions.backend o1 = AzureOptions.backend o2 ->
   (AzureOptions.Equals a b = true <-> name1 = name2))
  /\ (AzureOptions.backend o1 <> AzureOptions.backend o2 ->
      AzureOptions.Equals a b = false).
Proof.
  unfold AzureOptions.ConfigureAccountKeyCredentials, AzureOptions.Equals. simpl.
  split.
  - intros <-. rewrite !andb_true_r, andb_true_iff, !String.eqb_eq.
    destruct (AzureOptions.backend o1); simpl; split.
    + intros [H _]. injection H as H. now apply append_inj_r in H.
    + now intros ->.
    + intros [H _]. injection H as H. now apply append_inj_r in H.
    + now intros ->.
  - intros Hdiff.
    destruct (AzureOptions.backend o1), (AzureOptions.backend o2);
      try congruence; reflexivity.
Qed.

Lemma ConfigureAccountKeyCredentials_Equals_witness :
  AzureOptions.Equals
    (snd (AzureOptions.ConfigureAccountKeyCredentials "acct" "key-one"
            (Impl.options_ hello_impl)))
    (snd (AzureOptions.ConfigureAccountKeyCredentials "acct" "key-two"
            (Impl.options_ hello_impl)))
  = true.
Proof.
  apply (proj1 (ConfigureAccountKeyCredentials_Equals
                  (Impl.options_ hello_impl) (Impl.options_ hello_impl)
                  "acct" "key-one" "acct" "key-two") eq_refl).
  reflexivity.
Defined.

(** ** ObjectInputFile: what a call can touch *)

Lemma ReadAt_footprint (f f' : ObjectInputFile.t) (net net' : list StoreCall)
    (position nbytes : Z) (out : Buffer) (r : Result (Z * Buffer)) :
  ObjectInputFile.ReadAt position nbytes out f net = Some (r, f', net') ->
  f' = f /\ sent_at_most_one net net'.
Proof.
  intros H. split; [exact (ReadAt_frame _ _ _ _ _ _ _ _ H)|].
  revert H.
  unfold ObjectInputFile.ReadAt, ObjectInputFile.download, bind, check, gets, ret.
  destruct (ObjectInputFile.CheckClosed "read" f);
    try (intros H; inversion H; now left).
  destruct (ObjectInputFile.CheckPosition position "read" f);
    try (intros H; inversion H; now left).
  destruct (_ =? 0); [intros H; inversion H; now left|].
  destruct (ObjectInputFile.blob_client_ f) as [client|]; [|discriminate].
  destruct (DownloadTo client net position _); intros H; inversion H;
    right; eauto.
Qed.

Lemma ReadAt_buffer_footprint (f f' : ObjectInputFile.t) (net net' : list StoreCall)
    (position nbytes : Z) (r : Result Buffer) :
  ObjectInputFile.ReadAt_buffer position nbytes f net = Some (r, f', net') ->
  f' = f /\ sent_at_most_one net net'.
Proof.
  unfold ObjectInputFile.ReadAt_buffer.
  unfold bind at 1 2 3 4. unfold check at 1 2. unfold gets at 1. unfold lift at 1.
  destruct (ObjectInputFile.CheckClosed "read" f);
    try (intros H; inversion H; split; [reflexivity | now left]).
  destruct (ObjectInputFile.CheckPosition position "read" f);
    try (intros H; inversion H; split; [reflexivity | now left]).
  destruct (AllocateResizableBuffer _) as [buffer|e];
    [|intros H; inversion H; split; [reflexivity | now left]].
  destruct (_ >? 0); [|intros H; inversion H; split; [reflexivity | now left]].
  unfold bind, lift.
  destruct (ObjectInputFile.ReadAt position _ buffer f net)
    as [[[[x|e] f1] net1]|] eqn:E; [| |discriminate].
  - destruct (ReadAt_footprint _ _ _ _ _ _ _ _ E) as [-> Hnet].
    intros H. inversion H. subst. auto.
  - destruct (ReadAt_footprint _ _ _ _ _ _ _ _ E) as [-> Hnet].
    intros H. inversion H. subst. auto.
Qed.

Lemma Read_footprint (f f' : ObjectInputFile.t) (net net' : list StoreCall)
    (nbytes : Z) (out : Buffer) (r : Result (Z * Buffer)) :
  ObjectInputFile.Read nbytes out f net = Some (r, f', net') ->
  change f f' /\ sent_at_most_one net net'.
Proof.
  rewrite Read_spec.
  destruct (ObjectInputFile.ReadAt (ObjectInputFile.pos_ f) nbytes out f net)
    as [[[[x|e] f1] net1]|] eqn:E; [| |discriminate].
  - destruct (ReadAt_footprint _ _ _ _ _ _ _ _ E) as [_ Hnet].
    intros H. inversion H. subst. split; [constructor | exact Hnet].
  - destruct (ReadAt_footprint _ _ _ _ _ _ _ _ E) as [_ Hnet].
    intros H. inversion H. subst. split; [constructor | exact Hnet].
Qed.

Lemma Read_buffer_footprint (f f' : ObjectInputFile.t) (net net' : list StoreCall)
    (nbytes : Z) (r : Result Buffer) :
  ObjectInputFile.Read_buffer nbytes f net = Some (r, f', net') ->
  change f f' /\ sent_at_most_one net net'.
Proof.
  unfold ObjectInputFile.Read_buffer, bind, gets, modify, ret.
  destruct (ObjectInputFile.ReadAt_buffer (ObjectInputFile.pos_ f) nbytes f net)
    as [[[[b|e] f1] net1]|] eqn:E; [| |discriminate].
  - destruct (ReadAt_buffer_footprint _ _ _ _ _ _ _ E) as [-> Hnet].
    intros H. inversion H. subst. split; [constructor | exact Hnet].
  - destruct (ReadAt_buffer_footprint _ _ _ _ _ _ _ E) as [-> Hnet].
    intros H. inversion H. subst. split; [constructor | exact Hnet].
Qed.

Lemma Init_footprint (f f' : ObjectInputFile.t) (net net' : list StoreCall)
    (r : Result unit) :
  ObjectInputFile.Init f net = Some (r, f', net') ->
  change f f' /\ sent_at_most_one net net'.
Proof.
  unfold ObjectInputFile.Init.
  destruct (Z.eqb_spec (ObjectInputFile.content_length_ f) kNoSize) as [Hk|Hk];
    simpl negb; cbv iota.
  2:{ intros H. inversion H. split; [constructor | now left]. }
  destruct (ObjectInputFile.blob_client_ f) as [client|]; [|discriminate].
  destruct (GetProperties client net) as [exception|properties].
  - destruct (_ =? _); intros H; inversion H;
      (split; [constructor | right; eauto]).
  - intros H. inversion H. split; [now constructor | right; eauto].
Qed.

Lemma step_footprint (op : Op) (f f' : ObjectInputFile.t) (net net' : list StoreCall) :
  step op f net = Some (f', net') ->
  change f f' /\ sent_at_most_one net net'.
Proof.
  destruct op; unfold step, after.
  - destruct (ObjectInputFile.Init f net) as [[[r f1] net1]|] eqn:E; [|discriminate].
    intros H. inversion H. subst. exact (Init_footprint _ _ _ _ _ E).
  - intros H. inversion H. split; [constructor | now left].
  - intros H. inversion H. split; [constructor | now left].
  - intros H. inversion H. split; [constructor | now left].
  - unfold ObjectInputFile.Tell, bind, check, gets.
    destruct (ObjectInputFile.CheckClosed "tell" f);
      intros H; inversion H; (split; [constructor | now left]).
  - unfold ObjectInputFile.GetSize, bind, check, gets.
    destruct (ObjectInputFile.CheckClosed "size" f);
      intros H; inversion H; (split; [constructor | now left]).
  - unfold ObjectInputFile.Seek, bind, check, modify, ret.
    destruct (ObjectInputFile.CheckClosed "seek" f);
      try (intros H; inversion H; (split; [constructor | now left])).
    destruct (ObjectInputFile.CheckPosition position "seek" f);
      intros H; inversion H; (split; [constructor | now left]).
  - destruct (ObjectInputFile.ReadAt position nbytes out f net)
      as [[[r f1] net1]|] eqn:E; [|discriminate].
    intros H. inversion H. subst.
    destruct (ReadAt_footprint _ _ _ _ _ _ _ _ E) as [-> Hnet].
    split; [constructor | exact Hnet].
  - destruct (ObjectInputFile.ReadAt_buffer position nbytes f net)
      as [[[r f1] net1]|] eqn:E; [|discriminate].
    intros H. inversion H. subst.
    destruct (ReadAt_buffer_footprint _ _ _ _ _ _ _ E) as [-> Hnet].
    split; [constructor | exact Hnet].
  - destruct (ObjectInputFile.Read nbytes out f net)
      as [[[r f1] net1]|] eqn:E; [|discriminate].
    intros H. inversion H. subst. exact (Read_footprint _ _ _ _ _ _ _ E).
  - destruct (ObjectInputFile.Read_buffer nbytes f net)
      as [[[r f1] net1]|] eqn:E; [|discriminate].
    intros H. inversion H. subst. exact (Read_buffer_footprint _ _ _ _ _ _ E).
Qed.

Lemma change_keeps (f f' : ObjectInputFile.t) :
  change f f' ->
  ObjectInputFile.path_ f' = ObjectInputFile.path_ f
  /\ (ObjectInputFile.closed_ f = true -> ObjectInputFile.closed_ f' = true)
  /\ (ObjectInputFile.blob_client_ f = None -> ObjectInputFile.blob_client_ f' = None)
  /\ (ObjectInputFile.content_length_ f <> kNoSize ->
      ObjectInputFile.content_length_ f' = ObjectInputFile.content_length_ f
      /\ ObjectInputFile.metadata_ f' = ObjectInputFile.metadata_ f).
Proof.
  intros [ | position | | size md Hunknown]; simpl; repeat split; auto; congruence.
Qed.

(** X4.  Whatever calls are made on a handle, in whatever order and
    whether they succeed or not: once closed it stays closed and its client
    stays released, and its path is never replaced. *)
Theorem closed_is_permanent
    (ops : list Op) (f f' : ObjectInputFile.t) (net net' : list StoreCall) :
  steps ops f net = Some (f', net') ->
  ObjectInputFile.path_ f' = ObjectInputFile.path_ f
  /\ (ObjectInputFile.closed_ f = true -> ObjectInputFile.closed_ f' = true)
  /\ (ObjectInputFile.blob_client_ f = None ->
      ObjectInputFile.blob_client_ f' = None).
Proof.
  revert f net. induction ops as [|op rest IH]; intros f net; simpl.
  - intros H. inversion H. auto.
  - destruct (step op f net) as [[f1 net1]|] eqn:E; [|discriminate].
    intros Hrest. destruct (IH _ _ Hrest) as (Hp & Hc & Hb).
    destruct (step_footprint _ _ _ _ _ E) as [Hchange _].
    destruct (change_keeps _ _ Hchange) as (Hp1 & Hc1 & Hb1 & _).
    repeat split; [congruence | auto | auto].
Qed.

Lemma closed_is_permanent_witness :
  ObjectInputFile.closed_
    (ObjectInputFile.set_closed_ true
       (ObjectInputFile.set_blob_client_ None (hello_file 100))) = true.
Proof.
  apply (proj1 (proj2 (closed_is_permanent
                         [OpSeek 3; OpRead 4 []; OpInit; OpClose; OpTell]
                         (ObjectInputFile.set_closed_ true
                            (ObjectInputFile.set_blob_client_ None (hello_file 100)))
                         _ [] [] eq_refl))).
  reflexivity.
Defined.

(** X5.  A size that is resolved is never fetched again or replaced:
    whatever calls follow, [content_length_] and the cached metadata stay
    what they are. *)
Theorem resolved_size_is_final
    (ops : list Op) (f f' : ObjectInputFile.t) (net net' : list StoreCall) :
  steps ops f net = Some (f', net') ->
  ObjectInputFile.content_length_ f <> kNoSize ->
  ObjectInputFile.content_length_ f' = ObjectInputFile.content_length_ f
  /\ ObjectInputFile.metadata_ f' = ObjectInputFile.metadata_ f.
Proof.
  revert f net. induction ops as [|op rest IH]; intros f net; simpl.
  - intros H. inversion H. auto.
  - destruct (step op f net) as [[f1 net1]|] eqn:E; [|discriminate].
    intros Hrest Hknown.
    destruct (step_footprint _ _ _ _ _ E) as [Hchange _].
    destruct (change_keeps _ _ Hchange) as (_ & _ & _ & Hsize).
    destruct (Hsize Hknown) as [Hl Hm].
    destruct (IH _ _ Hrest) as [Hl' Hm']; [congruence|].
    split; congruence.
Qed.

Lemma resolved_size_is_final_witness :
  ObjectInputFile.content_length_
    (ObjectInputFile.set_pos_ 6 (hello_file 3)) = 12
  /\ ObjectInputFile.metadata_
       (ObjectInputFile.set_pos_ 6 (hello_file 3)) = Some [("k", "v")].
Proof.
  apply (resolved_size_is_final [OpInit; OpRead 5 []; OpRead_buffer 5; OpInit]
           (hello_file 3) _ []
           [DownloadToCall (GetUrl (hello_client 3)) 0 5;
            DownloadToCall (GetUrl (hello_client 3)) 3 5]
           eq_refl).
  discriminate.
Defined.

(** X6.  Requests are only ever added at the end of what was sent before,
    and no call sends more than one: after any calls, the requests are the
    old ones followed by at most as many new ones as there were calls. *)
Theorem requests_only_appended
    (ops : list Op) (f f' : ObjectInputFile.t) (net net' : list StoreCall) :
  steps ops f net = Some (f', net') ->
  exists sent,
    net' = (net ++ sent)%list /\ (List.length sent <= List.length ops)%nat.
Proof.
  revert f net. induction ops as [|op rest IH]; intros f net; simpl.
  - intros H. inversion H. exists []. rewrite app_nil_r. auto.
  - destruct (step op f net) as [[f1 net1]|] eqn:E; [|discriminate].
    intros Hrest. destruct (IH _ _ Hrest) as (sent & -> & Hlen).
    destruct (step_footprint _ _ _ _ _ E) as [_ [-> | [call ->]]].
    + exists sent. split; [reflexivity | lia].
    + exists (call :: sent). rewrite <- app_assoc. split; [reflexivity | simpl; lia].
Qed.

Lemma requests_only_appended_witness :
  exists sent,
    [DownloadToCall (GetUrl (hello_client 3)) 0 5] = ([] ++ sent)%list
    /\ (List.length sent <= 3)%nat.
Proof.
  apply (requests_only_appended [OpSeek 30; OpRead 5 []; OpClose]
           (hello_file 3)
           (ObjectInputFile.set_closed_ true
              (ObjectInputFile.set_blob_client_ None
                 (ObjectInputFile.set_pos_ 3 (hello_file 3))))
           [] _ eq_refl).
Defined.

(** ** ObjectInputFile: bounds *)

Lemma CheckClosed_OK_inv (action : string) (f : ObjectInputFile.t) :
  ObjectInputFile.CheckClosed action f = OK -> ObjectInputFile.closed_ f = false.
Proof.
  unfold ObjectInputFile.CheckClosed.
  destruct (ObjectInputFile.closed_ f); [discriminate | reflexivity].
Qed.

Lemma CheckPosition_OK_inv (position : Z) (action : string) (f : ObjectInputFile.t) :
  ObjectInputFile.CheckPosition position action f = OK ->
  0 <= position <= ObjectInputFile.content_length_ f.
Proof.
  unfold ObjectInputFile.CheckPosition.
  destruct (Z.ltb_spec position 0); [discriminate|].
  rewrite Z.gtb_ltb.
  destruct (Z.ltb_spec (ObjectInputFile.content_length_ f) position);
    [discriminate | lia].
Qed.

(** A [ReadAt] that returned a value passed both checks. *)
Lemma ReadAt_Ok_inv (f f1 : ObjectInputFile.t) (net net1 : list StoreCall)
    (position nbytes : Z) (out : Buffer) (x : Z * Buffer) :
  ObjectInputFile.ReadAt position nbytes out f net = Some (Ok x, f1, net1) ->
  ObjectInputFile.closed_ f = false
  /\ 0 <= position <= ObjectInputFile.content_length_ f.
Proof.
  unfold ObjectInputFile.ReadAt. unfold bind at 1 2. unfold check.
  destruct (ObjectInputFile.CheckClosed "read" f) eqn:Ec; try discriminate.
  destruct (ObjectInputFile.CheckPosition position "read" f) eqn:Ep;
    try discriminate.
  intros _. split.
  - exact (CheckClosed_OK_inv _ _ Ec).
  - exact (CheckPosition_OK_inv _ _ _ Ep).
Qed.

Lemma ReadAt_buffer_Ok_inv (f f1 : ObjectInputFile.t) (net net1 : list StoreCall)
    (position nbytes : Z) (b : Buffer) :
  ObjectInputFile.ReadAt_buffer position nbytes f net = Some (Ok b, f1, net1) ->
  ObjectInputFile.closed_ f = false
  /\ 0 <= position <= ObjectInputFile.content_length_ f.
Proof.
  unfold ObjectInputFile.ReadAt_buffer. unfold bind at 1 2. unfold check.
  destruct (ObjectInputFile.CheckClosed "read" f) eqn:Ec; try discriminate.
  destruct (ObjectInputFile.CheckPosition position "read" f) eqn:Ep;
    try discriminate.
  intros _. split.
  - exact (CheckClosed_OK_inv _ _ Ec).
  - exact (CheckPosition_OK_inv _ _ _ Ep).
Qed.

Lemma ReadAt_count (f f1 : ObjectInputFile.t) (net net1 : list StoreCall)
    (position nbytes : Z) (out out' : Buffer) (r : Z) :
  in_int64 (ObjectInputFile.content_length_ f) ->
  (forall client, ObjectInputFile.blob_client_ f = Some client ->
                  delivers_at_most client) ->
  ObjectInputFile.ReadAt position nbytes out f net = Some (Ok (r, out'), f1, net1) ->
  0 <= position <= ObjectInputFile.content_length_ f
  /\ 0 <= r <= Z.max 0 (Z.min nbytes (ObjectInputFile.content_length_ f - position)).
Proof.
  intros Hfit Hstore Hread.
  destruct (ReadAt_Ok_inv _ _ _ _ _ _ _ _ Hread) as [Hopen Hpos].
  split; [exact Hpos|].
  rewrite (ReadAt_spec f net position nbytes out Hopen Hfit Hpos) in Hread.
  destruct (Z.eqb_spec
              (Z.min nbytes (ObjectInputFile.content_length_ f - position)) 0)
    as [Hz|Hnz].
  - rewrite Hz. inversion Hread. lia.
  - destruct (ObjectInputFile.blob_client_ f) as [client|] eqn:Hclient.
    2:{ unfold ObjectInputFile.download in Hread. rewrite Hclient in Hread.
        discriminate. }
    rewrite (download_spec f net client _ _ out Hclient) in Hread.
    destruct (DownloadTo client net position _) as [e|result] eqn:Hd;
      [discriminate|].
    inversion Hread. subst.
    exact (Hstore client eq_refl _ _ _ _ Hd).
Qed.

Lemma ReadAt_buffer_count (f f1 : ObjectInputFile.t) (net net1 : list StoreCall)
    (position nbytes : Z) (b : Buffer) :
  in_int64 (ObjectInputFile.content_length_ f) ->
  (forall client, ObjectInputFile.blob_client_ f = Some client ->
                  delivers_at_most client) ->
  ObjectInputFile.ReadAt_buffer position nbytes f net = Some (Ok b, f1, net1) ->
  0 <= position <= ObjectInputFile.content_length_ f
  /\ 0 <= size b <= Z.min nbytes (ObjectInputFile.content_length_ f - position).
Proof.
  intros Hfit Hstore Hread.
  destruct (ReadAt_buffer_Ok_inv _ _ _ _ _ _ _ Hread) as [Hopen Hpos].
  split; [exact Hpos|].
  revert Hread. unfold ObjectInputFile.ReadAt_buffer.
  unfold bind at 1 2 3 4. unfold check at 1 2. unfold gets at 1. unfold lift at 1.
  rewrite (CheckClosed_open "read" f Hopen), (CheckPosition_ok _ "read" f Hpos).
  rewrite (sub64_exact _ _ Hfit Hpos).
  set (clamped := Z.min nbytes (ObjectInputFile.content_length_ f - position)).
  destruct (Z.lt_ge_cases clamped 0) as [Hneg|Hnn].
  { rewrite (AllocateResizableBuffer_negative _ Hneg). discriminate. }
  rewrite (AllocateResizableBuffer_ok _ Hnn).
  rewrite Z.gtb_ltb. destruct (Z.ltb_spec 0 clamped) as [Hgt|Hle].
  - unfold bind, lift.
    destruct (ObjectInputFile.ReadAt position clamped _ f net)
      as [[[[[r out']|e] f2] net2]|] eqn:E; try discriminate.
    pose proof (ReadAt_count _ _ _ _ _ _ _ _ _ Hfit Hstore E) as [_ Hr].
    simpl fst. simpl snd.
    destruct (Resize r out') as [b0|e] eqn:Er; [|discriminate].
    intros H. inversion H. subst.
    destruct (Resize_size _ _ _ Er) as [-> _]. unfold clamped in *. lia.
  - unfold ret. intros H. inversion H. subst f1.
    unfold size. rewrite repeat_length. unfold clamped in *. lia.
Qed.

(** X7.  With a store that never reports more than the range it was asked
    for, a successful positional read, of either kind, returns no more
    bytes than were asked for (none for a negative request) and no more
    than lie between the position and the end of the object, and never a
    negative count. *)
Theorem ReadAt_count_bounded
    (f : ObjectInputFile.t) (net : list StoreCall) (position nbytes : Z) :
  in_int64 (ObjectInputFile.content_length_ f) ->
  (forall client, ObjectInputFile.blob_client_ f = Some client ->
                  delivers_at_most client) ->
  (forall out r out' f1 net1,
      ObjectInputFile.ReadAt position nbytes out f net
      = Some (Ok (r, out'), f1, net1) ->
      0 <= r <= Z.max 0 nbytes
      /\ r <= ObjectInputFile.content_length_ f - position)
  /\ (forall b f1 net1,
         ObjectInputFile.ReadAt_buffer position nbytes f net
         = Some (Ok b, f1, net1) ->
         0 <= size b <= nbytes
         /\ size b <= ObjectInputFile.content_length_ f - position).
Proof.
  intros Hfit Hstore. split.
  - intros out r out' f1 net1 Hread.
    pose proof (ReadAt_count _ _ _ _ _ _ _ _ _ Hfit Hstore Hread). lia.
  - intros b f1 net1 Hread.
    pose proof (ReadAt_buffer_count _ _ _ _ _ _ _ Hfit Hstore Hread). lia.
Qed.

Lemma hello_client_delivers_at_most (cap : nat) : delivers_at_most (hello_client cap).
Proof.
  intros net offset length result. simpl. intros H. injection H as <-. simpl.
  rewrite length_firstn. lia.
Qed.

Lemma ReadAt_count_bounded_witness :
  (0 <= 3 <= Z.max 0 5 /\ 3 <= 12 - 0)
  /\ (0 <= size (list_of_string "lo A") <= 100
      /\ size (list_of_string "lo A") <= 12 - 3).
Proof.
  assert (Hstore : forall client,
             ObjectInputFile.blob_client_ (hello_file 3) = Some client ->
             delivers_at_most client).
  { intros client H. injection H as <-. apply hello_client_delivers_at_most. }
  assert (Hstore4 : forall client,
             ObjectInputFile.blob_client_ (hello_file 4) = Some client ->
             delivers_at_most client).
  { intros client H. injection H as <-. apply hello_client_delivers_at_most. }
  split.
  - apply (proj1 (ReadAt_count_bounded (hello_file 3) [] 0 5 in_int64_12 Hstore)
             [] 3 (list_of_string "Hel") (hello_file 3)
             [DownloadToCall (GetUrl (hello_client 3)) 0 5]).
    reflexivity.
  - apply (proj2 (ReadAt_count_bounded (hello_file 4) [] 3 100 in_int64_12 Hstore4)
             (list_of_string "lo A") (hello_file 4)
             [DownloadToCall (GetUrl (hello_client 4)) 3 9]).
    reflexivity.
Defined.

Lemma step_cursor (op : Op) (f f' : ObjectInputFile.t) (net net' : list StoreCall) :
  step op f net = Some (f', net') ->
  ObjectInputFile.content_length_ f <> kNoSize ->
  cursor_in_range f ->
  (forall client, ObjectInputFile.blob_client_ f = Some client ->
                  delivers_at_most client) ->
  0 <= ObjectInputFile.pos_ f' <= ObjectInputFile.content_length_ f.
Proof.
  intros Hstep Hknown [Hfit Hin] Hstore. revert Hstep.
  destruct op; unfold step, after.
  - unfold ObjectInputFile.Init.
    destruct (Z.eqb_spec (ObjectInputFile.content_length_ f) kNoSize);
      [contradiction|].
    simpl. intros H. inversion H. subst. exact Hin.
  - intros H. inversion H. subst. exact Hin.
  - intros H. inversion H. subst. exact Hin.
  - intros H. inversion H. subst. exact Hin.
  - unfold ObjectInputFile.Tell, bind, check, gets.
    destruct (ObjectInputFile.CheckClosed "tell" f);
      intros H; inversion H; subst; exact Hin.
  - unfold ObjectInputFile.GetSize, bind, check, gets.
    destruct (ObjectInputFile.CheckClosed "size" f);
      intros H; inversion H; subst; exact Hin.
  - unfold ObjectInputFile.Seek, bind, check, modify, ret.
    destruct (ObjectInputFile.CheckClosed "seek" f);
      try (intros H; inversion H; subst; exact Hin).
    destruct (ObjectInputFile.CheckPosition position "seek" f) eqn:Ep;
      try (intros H; inversion H; subst; exact Hin).
    intros H. inversion H. subst. simpl.
    exact (CheckPosition_OK_inv _ _ _ Ep).
  - destruct (ObjectInputFile.ReadAt position nbytes out f net)
      as [[[r f1] net1]|] eqn:E; [|discriminate].
    intros H. inversion H. subst.
    destruct (ReadAt_footprint _ _ _ _ _ _ _ _ E) as [-> _]. exact Hin.
  - destruct (ObjectInputFile.ReadAt_buffer position nbytes f net)
      as [[[r f1] net1]|] eqn:E; [|discriminate].
    intros H. inversion H. subst.
    destruct (ReadAt_buffer_footprint _ _ _ _ _ _ _ E) as [-> _]. exact Hin.
  - rewrite Read_spec.
    destruct (ObjectInputFile.ReadAt (ObjectInputFile.pos_ f) nbytes out f net)
      as [[[[[r o]|e] f1] net1]|] eqn:E; [| |discriminate].
    + pose proof (ReadAt_count _ _ _ _ _ _ _ _ _ Hfit Hstore E) as [_ Hr].
      intros H. inversion H. subst. simpl.
      unfold add64. rewrite wrap64_id; [lia|].
      unfold in_int64, int64_min, int64_max in *. lia.
    + intros H. inversion H. subst. exact Hin.
  - unfold ObjectInputFile.Read_buffer, bind, gets, modify, ret.
    destruct (ObjectInputFile.ReadAt_buffer (ObjectInputFile.pos_ f) nbytes f net)
      as [[[[b|e] f1] net1]|] eqn:E; [| |discriminate].
    + pose proof (ReadAt_buffer_count _ _ _ _ _ _ _ Hfit Hstore E) as [_ Hr].
      destruct (ReadAt_buffer_footprint _ _ _ _ _ _ _ E) as [-> _].
      intros H. inversion H. subst. simpl.
      unfold add64. rewrite wrap64_id; [lia|].
      unfold in_int64, int64_min, int64_max in *. lia.
    + destruct (ReadAt_buffer_footprint _ _ _ _ _ _ _ E) as [-> _].
      intros H. inversion H. subst. exact Hin.
Qed.

Lemma change_client (f f' : ObjectInputFile.t) :
  change f f' ->
  ObjectInputFile.blob_client_ f' = ObjectInputFile.blob_client_ f
  \/ ObjectInputFile.blob_client_ f' = None.
Proof. intros [ | position | | size md Hunknown]; simpl; auto. Qed.

(** X8.  On a handle whose size is resolved, with a store that never
    reports more than it was asked for, the cursor never leaves the range
    from 0 to [content_length_], whatever is called, with whatever
    arguments, and whether the calls succeed or fail. *)
Theorem cursor_stays_in_range
    (ops : list Op) (f f' : ObjectInputFile.t) (net net' : list StoreCall) :
  steps ops f net = Some (f', net') ->
  ObjectInputFile.content_length_ f <> kNoSize ->
  cursor_in_range f ->
  (forall client, ObjectInputFile.blob_client_ f = Some client ->
                  delivers_at_most client) ->
  0 <= ObjectInputFile.pos_ f' <= ObjectInputFile.content_length_ f
  /\ ObjectInputFile.content_length_ f' = ObjectInputFile.content_length_ f.
Proof.
  revert f net. induction ops as [|op rest IH]; intros f net; simpl.
  - intros H _ [_ Hin] _. inversion H. subst. auto.
  - destruct (step op f net) as [[f1 net1]|] eqn:E; [|discriminate].
    intros Hrest Hknown Hrange Hstore.
    pose proof (step_cursor _ _ _ _ _ E Hknown Hrange Hstore) as Hpos1.
    destruct (step_footprint _ _ _ _ _ E) as [Hchange _].
    destruct (change_keeps _ _ Hchange) as (_ & _ & _ & Hsize).
    destruct (Hsize Hknown) as [Hl _].
    destruct (IH f1 net1 Hrest) as [Hpos' Hl'].
    + congruence.
    + destruct Hrange as [Hfit _]. unfold cursor_in_range. rewrite Hl. auto.
    + intros client Hc. apply Hstore.
      destruct (change_client _ _ Hchange) as [Hsame|Hnone]; congruence.
    + split; congruence.
Qed.

Lemma cursor_stays_in_range_witness :
  0 <= ObjectInputFile.pos_ (ObjectInputFile.set_pos_ 12 (hello_file 5)) <= 12
  /\ ObjectInputFile.content_length_ (ObjectInputFile.set_pos_ 12 (hello_file 5)) = 12.
Proof.
  assert (Hrange : cursor_in_range (hello_file 5)).
  { split; [exact in_int64_12 | simpl; lia]. }
  apply (cursor_stays_in_range
           [OpSeek 20; OpRead 100 []; OpSeek (-3); OpRead_buffer 100;
            OpRead 7 []; OpReadAt 2 3 []]
           (hello_file 5) (ObjectInputFile.set_pos_ 12 (hello_file 5)) []
           [DownloadToCall (GetUrl (hello_client 5)) 0 12;
            DownloadToCall (GetUrl (hello_client 5)) 5 7;
            DownloadToCall (GetUrl (hello_client 5)) 10 2;
            DownloadToCall (GetUrl (hello_client 5)) 2 3]
           eq_refl).
  - discriminate.
  - exact Hrange.
  - intros client H. injection H as <-. apply hello_client_delivers_at_most.
Defined.

(** ** ObjectInputFile: initialisation and metadata *)

Lemma fold_Append (result : list (string * string)) (md : KeyValueMetadata) :
  fold_left (fun md prop => Append md (fst prop) (snd prop)) result md
  = (md ++ result)%list.
Proof.
  revert md. induction result as [|[k v] rest IH]; intros md; simpl.
  - now rewrite app_nil_r.
  - rewrite IH. unfold Append. simpl. now rewrite <- app_assoc.
Qed.

Lemma GetObjectMetadata_verbatim (result : list (string * string)) :
  GetObjectMetadata result = result.
Proof. unfold GetObjectMetadata. now rewrite fold_Append. Qed.

(** X9.  [Init] on a handle of unknown size whose property fetch succeeds
    sends that one request, takes the blob size as [content_length_], and
    caches the store's metadata pairs as they came, in order and with
    duplicates; cursor, closed flag, path and client are untouched, and
    [ReadMetadata] afterwards returns exactly those pairs. *)
Theorem Init_resolves
    (f : ObjectInputFile.t) (net : list StoreCall)
    (client : BlobClient) (properties : BlobProperties) :
  ObjectInputFile.content_length_ f = kNoSize ->
  ObjectInputFile.blob_client_ f = Some client ->
  GetProperties client net = inr properties ->
  exists f',
    ObjectInputFile.Init f net
    = Some (Ok tt, f', (net ++ [GetPropertiesCall (GetUrl client)])%list)
    /\ ObjectInputFile.content_length_ f' = BlobSize properties
    /\ ObjectInputFile.metadata_ f' = Some (Metadata properties)
    /\ ObjectInputFile.pos_ f' = ObjectInputFile.pos_ f
    /\ ObjectInputFile.closed_ f' = ObjectInputFile.closed_ f
    /\ ObjectInputFile.path_ f' = ObjectInputFile.path_ f
    /\ ObjectInputFile.blob_client_ f' = Some client
    /\ (forall net2,
           ObjectInputFile.ReadMetadata f' net2
           = Some (Ok (Some (Metadata properties)), f', net2)).
Proof.
  intros Hsize Hclient Hfetch. unfold ObjectInputFile.Init.
  rewrite Hsize, Hclient, Hfetch. simpl negb. cbv iota.
  eexists. split; [reflexivity|]. simpl.
  rewrite GetObjectMetadata_verbatim.
  repeat split; auto.
Qed.

Lemma Init_resolves_witness :
  exists f',
    ObjectInputFile.Init
      (ObjectInputFile.make
         (capped_blob "u" hello [("b", "2"); ("a", "1"); ("b", "3")] 4)
         hello_path kNoSize) []
    = Some (Ok tt, f', [GetPropertiesCall "u"])
    /\ ObjectInputFile.content_length_ f' = 12
    /\ ObjectInputFile.metadata_ f' = Some [("b", "2"); ("a", "1"); ("b", "3")].
Proof.
  destruct (Init_resolves
              (ObjectInputFile.make
                 (capped_blob "u" hello [("b", "2"); ("a", "1"); ("b", "3")] 4)
                 hello_path kNoSize) []
              _ {| BlobSize := 12;
                   Metadata := [("b", "2"); ("a", "1"); ("b", "3")] |}
              eq_refl eq_refl eq_refl)
    as (f' & Hrun & Hsize & Hmd & _).
  exists f'. auto.
Defined.

(** X10.  [Init] on a handle whose size is known, that is not negative,
    sends nothing and changes nothing, so the metadata of a handle built
    with a size stays null and [ReadMetadata] returns null; and a
    successful [Init] that left such a size makes every later [Init] such a
    no-op. *)
Theorem Init_once
    (f : ObjectInputFile.t) (net : list StoreCall) :
  (0 <= ObjectInputFile.content_length_ f ->
   ObjectInputFile.Init f net = Some (Ok tt, f, net))
  /\ (forall client path size,
         0 <= size ->
         ObjectInputFile.Init (ObjectInputFile.make client path size) net
         = Some (Ok tt, ObjectInputFile.make client path size, net)
         /\ ObjectInputFile.ReadMetadata (ObjectInputFile.make client path size) net
            = Some (Ok None, ObjectInputFile.make client path size, net))
  /\ (forall f' net',
         ObjectInputFile.Init f net = Some (Ok tt, f', net') ->
         0 <= ObjectInputFile.content_length_ f' ->
         forall net2, ObjectInputFile.Init f' net2 = Some (Ok tt, f', net2)).
Proof.
  assert (Hknown : forall g n,
             0 <= ObjectInputFile.content_length_ g ->
             ObjectInputFile.Init g n = Some (Ok tt, g, n)).
  { intros g n Hg. unfold ObjectInputFile.Init.
    destruct (Z.eqb_spec (ObjectInputFile.content_length_ g) kNoSize) as [Hk|Hk];
      [unfold kNoSize in Hk; lia | reflexivity]. }
  split; [apply Hknown|]. split.
  - intros client path size Hsize. split; [now apply Hknown | reflexivity].
  - intros f' net' _ Hleft net2. now apply Hknown.
Qed.

Lemma Init_once_witness :
  ObjectInputFile.Init (hello_file 100) [] = Some (Ok tt, hello_file 100, [])
  /\ ObjectInputFile.ReadMetadata
       (ObjectInputFile.make (hello_client 100) hello_path 12) []
     = Some (Ok None, ObjectInputFile.make (hello_client 100) hello_path 12, []).
Proof.
  assert (Hsize : 0 <= 12) by lia.
  split.
  - apply (proj1 (Init_once (hello_file 100) [])). exact Hsize.
  - apply (proj1 (proj2 (Init_once (hello_file 100) [])) (hello_client 100)
             hello_path 12).
    exact Hsize.
Defined.

(** ** ObjectInputFile: cursor and reads *)

(** X11.  On an open handle, [Seek] to a position from 0 to
    [content_length_] followed by [Tell] returns that position; a [Seek]
    that fails, for whatever reason, leaves the handle exactly as it was,
    so [Tell] still returns the old cursor; and [GetSize] returns
    [content_length_] wherever the cursor is. *)
Theorem Seek_then_Tell
    (f : ObjectInputFile.t) (net : list StoreCall) (position : Z) :
  ObjectInputFile.closed_ f = false ->
  (0 <= position <= ObjectInputFile.content_length_ f ->
   bind (ObjectInputFile.Seek position) (fun _ => ObjectInputFile.Tell) f net
   = Some (Ok position, ObjectInputFile.set_pos_ position f, net)
   /\ bind (ObjectInputFile.Seek position) (fun _ => ObjectInputFile.GetSize) f net
      = Some (Ok (ObjectInputFile.content_length_ f),
              ObjectInputFile.set_pos_ position f, net))
  /\ (forall e f' net',
         ObjectInputFile.Seek position f net = Some (Err e, f', net') ->
         f' = f /\ net' = net
         /\ ObjectInputFile.Tell f' net'
            = Some (Ok (ObjectInputFile.pos_ f), f, net)).
Proof.
  intros Hopen. split.
  - intros Hin.
    unfold bind, ObjectInputFile.Seek, ObjectInputFile.Tell,
      ObjectInputFile.GetSize, bind, check, modify, gets, ret.
    rewrite (CheckClosed_open "seek" f Hopen), (CheckPosition_ok _ "seek" f Hin).
    unfold ObjectInputFile.CheckClosed. simpl. rewrite Hopen. auto.
  - intros e f' net'.
    unfold ObjectInputFile.Seek, ObjectInputFile.Tell, bind, check, modify, gets, ret.
    rewrite (CheckClosed_open "seek" f Hopen).
    destruct (ObjectInputFile.CheckPosition position "seek" f);
      intros H; inversion H; subst;
      rewrite (CheckClosed_open "tell" f' Hopen); auto.
Qed.

Lemma Seek_then_Tell_witness :
  bind (ObjectInputFile.Seek 7) (fun _ => ObjectInputFile.Tell) (hello_file 100) []
  = Some (Ok 7, ObjectInputFile.set_pos_ 7 (hello_file 100), [])
  /\ ObjectInputFile.Tell (hello_file 100) [] = Some (Ok 0, hello_file 100, []).
Proof.
  assert (Hin : 0 <= 7 <= 12) by lia.
  split.
  - apply (proj1 (Seek_then_Tell (hello_file 100) [] 7 eq_refl) Hin).
  - apply (proj2 (Seek_then_Tell (hello_file 100) [] 13 eq_refl)
             (IOError "Cannot seek past end of file") (hello_file 100) []).
    reflexivity.
Defined.

(** X12.  Both positional reads check before they fetch: on a closed
    handle they fail with Invalid, on an open one with Invalid for a
    negative position and with IOError for a position past
    [content_length_]; in each case nothing is sent to the store and the
    handle is left as it was. *)
Theorem ReadAt_checks_before_fetch
    (f : ObjectInputFile.t) (net : list StoreCall)
    (position nbytes : Z) (out : Buffer) :
  0 <= ObjectInputFile.content_length_ f ->
  (ObjectInputFile.closed_ f = true ->
   ObjectInputFile.ReadAt position nbytes out f net
   = Some (Err (Invalid "Cannot read on closed file."), f, net)
   /\ ObjectInputFile.ReadAt_buffer position nbytes f net
      = Some (Err (Invalid "Cannot read on closed file."), f, net))
  /\ (ObjectInputFile.closed_ f = false -> position < 0 ->
      ObjectInputFile.ReadAt position nbytes out f net
      = Some (Err (Invalid "Cannot read from negative position"), f, net)
      /\ ObjectInputFile.ReadAt_buffer position nbytes f net
         = Some (Err (Invalid "Cannot read from negative position"), f, net))
  /\ (ObjectInputFile.closed_ f = false ->
      position > ObjectInputFile.content_length_ f ->
      ObjectInputFile.ReadAt position nbytes out f net
      = Some (Err (IOError "Cannot read past end of file"), f, net)
      /\ ObjectInputFile.ReadAt_buffer position nbytes f net
         = Some (Err (IOError "Cannot read past end of file"), f, net)).
Proof.
  intros Hlen.
  unfold ObjectInputFile.ReadAt, ObjectInputFile.ReadAt_buffer, bind, check.
  split; [|split].
  - intros Hc. now rewrite (CheckClosed_closed "read" f Hc).
  - intros Hc Hneg.
    now rewrite (CheckClosed_open "read" f Hc),
      (CheckPosition_negative _ "read" f Hneg).
  - intros Hc Hpast.
    rewrite (CheckClosed_open "read" f Hc), (CheckPosition_past_end _ "read" f);
      [auto | lia | exact Hpast].
Qed.

Lemma ReadAt_checks_before_fetch_witness :
  ObjectInputFile.ReadAt 15 1 [] (hello_file 100) []
  = Some (Err (IOError "Cannot read past end of file"), hello_file 100, [])
  /\ ObjectInputFile.ReadAt_buffer (-1) 4 (hello_file 100) []
     = Some (Err (Invalid "Cannot read from negative position"), hello_file 100, []).
Proof.
  assert (Hlen : 0 <= 12) by lia.
  split.
  - apply (proj2 (proj2 (ReadAt_checks_before_fetch
                           (hello_file 100) [] 15 1 [] Hlen)));
      [reflexivity | simpl; lia].
  - apply (proj1 (proj2 (ReadAt_checks_before_fetch
                           (hello_file 100) [] (-1) 4 [] Hlen)));
      [reflexivity | lia].
Defined.

(** X13.  With the cursor at [content_length_], a [Read] of any
    non-negative count returns 0 bytes and an untouched destination, the
    buffer variant an empty buffer; nothing is sent to the store and the
    cursor stays at the end.  So does a [Seek] to the end followed by a
    [Read]. *)
Theorem Read_at_end_of_file
    (f : ObjectInputFile.t) (net : list StoreCall) (nbytes : Z) (out : Buffer) :
  ObjectInputFile.closed_ f = false ->
  in_int64 (ObjectInputFile.content_length_ f) ->
  0 <= ObjectInputFile.content_length_ f ->
  0 <= nbytes ->
  let len := ObjectInputFile.content_length_ f in
  (ObjectInputFile.pos_ f = len ->
   ObjectInputFile.Read nbytes out f net
   = Some (Ok (0, out), ObjectInputFile.set_pos_ len f, net)
   /\ ObjectInputFile.Read_buffer nbytes f net
      = Some (Ok [], ObjectInputFile.set_pos_ len f, net))
  /\ bind (ObjectInputFile.Seek len) (fun _ => ObjectInputFile.Read nbytes out) f net
     = Some (Ok (0, out), ObjectInputFile.set_pos_ len f, net).
Proof.
  intros Hopen Hfit Hlen Hn len.
  assert (Hend : forall g,
             ObjectInputFile.closed_ g = false ->
             ObjectInputFile.content_length_ g = len ->
             ObjectInputFile.pos_ g = len ->
             ObjectInputFile.Read nbytes out g net
             = Some (Ok (0, out), ObjectInputFile.set_pos_ len g, net)).
  { intros g Hg Hl Hp. rewrite Read_spec, ReadAt_spec;
      [|exact Hg | rewrite Hl; exact Hfit | rewrite Hl, Hp; unfold len; lia].
    rewrite Hl, Hp.
    replace (Z.min nbytes (len - len) =? 0) with true
      by (symmetry; apply Z.eqb_eq; lia).
    cbv beta iota. simpl fst.
    assert (Hsame : add64 len 0 = len)
      by (unfold add64; rewrite Z.add_0_r; now apply wrap64_id).
    now rewrite Hsame. }
  split.
  - intros Hp. split; [now apply Hend|].
    unfold ObjectInputFile.Read_buffer, ObjectInputFile.ReadAt_buffer.
    unfold bind at 1 2 3 4 5 6. unfold gets at 1 2. unfold check at 1 2.
    unfold lift at 1, modify, ret.
    rewrite (CheckClosed_open "read" f Hopen), (CheckPosition_ok _ "read" f)
      by (rewrite Hp; unfold len; lia).
    rewrite (sub64_exact _ _ Hfit) by (rewrite Hp; unfold len; lia).
    rewrite Hp. fold len.
    replace (Z.min nbytes (len - len)) with 0 by lia.
    simpl. unfold bind. change (size []) with 0. rewrite Hp.
    assert (Hsame : add64 len 0 = len)
      by (unfold add64; rewrite Z.add_0_r; now apply wrap64_id).
    now rewrite Hsame.
  - unfold bind, ObjectInputFile.Seek, bind, check, modify, ret.
    rewrite (CheckClosed_open "seek" f Hopen), (CheckPosition_ok _ "seek" f)
      by (unfold len; lia).
    now rewrite Hend.
Qed.

Lemma Read_at_end_of_file_witness :
  bind (ObjectInputFile.Seek 12) (fun _ => ObjectInputFile.Read 1 [])
    (hello_file 100) []
  = Some (Ok (0, []), ObjectInputFile.set_pos_ 12 (hello_file 100), []).
Proof.
  assert (Hlen : 0 <= 12) by lia.
  assert (Hn : 0 <= 1) by lia.
  apply (proj2 (Read_at_end_of_file (hello_file 100) [] 1 []
                  eq_refl in_int64_12 Hlen Hn)).
Defined.

(** X14.  A negative count is not cut down to 0: on an open handle at a
    valid position, [ReadAt] with a negative [nbytes] sends the store one
    ranged fetch with that negative length, and returns whatever the store
    answers. *)
Theorem ReadAt_negative_count_reaches_store
    (f : ObjectInputFile.t) (net : list StoreCall) (client : BlobClient)
    (position nbytes : Z) (out : Buffer) :
  ObjectInputFile.closed_ f = false ->
  ObjectInputFile.blob_client_ f = Some client ->
  in_int64 (ObjectInputFile.content_length_ f) ->
  0 <= position <= ObjectInputFile.content_length_ f ->
  nbytes < 0 ->
  exists r,
    ObjectInputFile.ReadAt position nbytes out f net
    = Some (r, f, (net ++ [DownloadToCall (GetUrl client) position nbytes])%list)
    /\ (forall result,
           DownloadTo client net position nbytes = inr result ->
           r = Ok (ContentRange_Length result, store_into (Body result) out)).
Proof.
  intros Hopen Hclient Hfit Hpos Hneg.
  rewrite (ReadAt_spec f net position nbytes out Hopen Hfit Hpos).
  replace (Z.min nbytes (ObjectInputFile.content_length_ f - position))
    with nbytes by lia.
  destruct (Z.eqb_spec nbytes 0); [lia|].
  rewrite (download_spec f net client _ _ out Hclient).
  eexists. split; [reflexivity|].
  intros result ->. reflexivity.
Qed.

Lemma ReadAt_negative_count_reaches_store_witness :
  exists r,
    ObjectInputFile.ReadAt 4 (-2) [] (hello_file 100) []
    = Some (r, hello_file 100, [DownloadToCall (GetUrl (hello_client 100)) 4 (-2)]).
Proof.
  assert (Hpos : 0 <= 4 <= 12) by lia.
  assert (Hneg : -2 < 0) by lia.
  destruct (ReadAt_negative_count_reaches_store (hello_file 100) []
              (hello_client 100) 4 (-2) [] eq_refl eq_refl in_int64_12 Hpos Hneg)
    as (r & Hrun & _).
  exists r. exact Hrun.
Defined.

(** ** AzurePath: the shape of parsed addresses *)

Lemma substring_enough (s : string) (n m m' : nat) :
  (String.length s <= m)%nat -> (String.length s <= m')%nat ->
  String.substring n m s = String.substring n m' s.
Proof.
  revert n m m'. induction s as [|a s IH]; intros n m m' Hm Hm'.
  - destruct n, m, m'; reflexivity.
  - destruct n as [|n].
    + now rewrite !substring_all.
    + simpl in *. apply IH; lia.
Qed.

(** Where [find_first_of] finds the character, the string is what lies
    before it, the character, and what lies after it. *)
Lemma find_first_of_split (s : string) (c : ascii) (i : nat) :
  find_first_of s c = Some i ->
  s = substr s 0 i ++ String c (substr_from s (i + 1))
  /\ find_first_of (substr s 0 i) c = None
  /\ String.length (substr s 0 i) = i.
Proof.
  unfold substr, substr_from. revert i.
  induction s as [|a s IH]; intros i; simpl; [discriminate|].
  destruct (Ascii.eqb a c) eqn:Ea.
  - intros H. injection H as <-. apply Ascii.eqb_eq in Ea. subst a. simpl.
    rewrite substring_all by lia. auto.
  - destruct (find_first_of s c) as [j|] eqn:Ej; [|discriminate].
    intros H. injection H as <-. simpl.
    destruct (IH j eq_refl) as (Hs & Hnone & Hlen).
    rewrite Ea, Hnone, Hlen.
    rewrite (substring_enough s (j + 1) (S (String.length s)) (String.length s))
      by lia.
    rewrite <- Hs. auto.
Qed.

Lemma back_RemoveTrailingSlash (s : string) :
  internal.back (internal.RemoveTrailingSlash s) <> Some internal.kSep.
Proof.
  induction s as [|c s IH]; simpl; [discriminate|].
  destruct (internal.RemoveTrailingSlash s) as [|d kept] eqn:E.
  - destruct (Ascii.eqb c internal.kSep) eqn:Ec; simpl; [discriminate|].
    apply Ascii.eqb_neq in Ec. congruence.
  - exact IH.
Qed.

Lemma back_append_sep (c : string) :
  internal.back (c ++ String internal.kSep "") = Some internal.kSep.
Proof.
  induction c as [|a c IH]; simpl; [reflexivity|].
  destruct (c ++ String internal.kSep "") eqn:E; [|exact IH].
  destruct c; discriminate.
Qed.

(** The fields of a parsed address, by the branch of [FromString] that
    built it. *)
Lemma FromString_shape (s : string) (a : AzurePath.t) :
  AzurePath.FromString s = Ok a ->
  internal.HasTrailingSlash (AzurePath.full_path a) = false
  /\ find_first_of (AzurePath.container a) internal.kSep = None
  /\ (AzurePath.has_parent a = false ->
      AzurePath.full_path a = AzurePath.container a
      /\ AzurePath.path_to_file a = ""
      /\ AzurePath.path_to_file_parts a = [])
  /\ (AzurePath.has_parent a = true ->
      AzurePath.container a <> ""
      /\ AzurePath.full_path a
         = AzurePath.container a ++ sep ++ AzurePath.path_to_file a
      /\ AzurePath.path_to_file_parts a
         = internal.SplitAbstractPath (AzurePath.path_to_file a)
      /\ internal.ValidateAbstractPathParts (AzurePath.path_to_file_parts a) = OK).
Proof.
  intros Hparse.
  pose proof (FromString_full_path s a Hparse) as Hfull.
  assert (Htrail : internal.HasTrailingSlash (AzurePath.full_path a) = false).
  { unfold internal.HasTrailingSlash. rewrite Hfull.
    pose proof (back_RemoveTrailingSlash s) as Hb.
    destruct (internal.back (internal.RemoveTrailingSlash s)) as [c|];
      [|reflexivity].
    apply Ascii.eqb_neq. congruence. }
  split; [exact Htrail|].
  revert Hparse Hfull Htrail. unfold AzurePath.FromString.
  destruct (internal.IsLikelyUri s); [discriminate|].
  set (src := internal.RemoveTrailingSlash s).
  destruct (find_first_of src internal.kSep) as [[|i]|] eqn:Efind;
    [discriminate| |].
  - destruct (find_first_of_split src internal.kSep (S i) Efind)
      as (Hsrc & Hnone & Hlen).
    set (rest := substr_from src (S i + 1)) in *.
    set (cont := substr src 0 (S i)) in *.
    unfold return_not_ok, AzurePath.Validate.
    cbn [AzurePath.path_to_file_parts AzurePath.full_path].
    destruct (internal.ValidateAbstractPathParts (internal.SplitAbstractPath rest))
      eqn:Hvalid; try discriminate.
    cbn [ok negb]. cbv iota.
    intros H _ Htrail. injection H as <-.
    cbn [AzurePath.full_path AzurePath.container AzurePath.path_to_file
         AzurePath.path_to_file_parts] in *.
    assert (Hrest : rest <> "").
    { intros Hempty. rewrite Hempty in Hsrc.
      unfold internal.HasTrailingSlash in Htrail.
      rewrite Hsrc, back_append_sep, Ascii.eqb_refl in Htrail. discriminate. }
    unfold AzurePath.has_parent.
    cbn [AzurePath.full_path AzurePath.container AzurePath.path_to_file
         AzurePath.path_to_file_parts].
    split; [exact Hnone|]. split.
    + destruct rest; [congruence | discriminate].
    + intros _. repeat split; auto.
      intros Hc. rewrite Hc in Hlen. discriminate.
  - intros H _ _. injection H as <-. unfold AzurePath.has_parent. simpl.
    split; [exact Efind|]. split; [auto | discriminate].
Qed.

(** X15.  Every address [FromString] returns is well formed: its full path
    does not end in a separator and its container holds none; without a
    file part the full path is the container and there are no parts; with
    one, the container is not empty, the full path is the container, a
    separator and the path, and the parts are the path split on
    separators, each accepted by the validator. *)
Theorem FromString_well_formed (s : string) (a : AzurePath.t) :
  AzurePath.FromString s = Ok a ->
  internal.HasTrailingSlash (AzurePath.full_path a) = false
  /\ find_first_of (AzurePath.container a) internal.kSep = None
  /\ (AzurePath.has_parent a = false ->
      AzurePath.full_path a = AzurePath.container a
      /\ AzurePath.path_to_file a = ""
      /\ AzurePath.path_to_file_parts a = [])
  /\ (AzurePath.has_parent a = true ->
      AzurePath.container a <> ""
      /\ AzurePath.full_path a
         = AzurePath.container a ++ sep ++ AzurePath.path_to_file a
      /\ AzurePath.path_to_file_parts a
         = internal.SplitAbstractPath (AzurePath.path_to_file a)
      /\ internal.ValidateAbstractPathParts (AzurePath.path_to_file_parts a) = OK).
Proof. exact (FromString_shape s a). Qed.

Lemma FromString_well_formed_witness :
  internal.HasTrailingSlash "c/a/b" = false
  /\ find_first_of "c" internal.kSep = None.
Proof.
  destruct (FromString_well_formed "c/a/b//"
              {| AzurePath.full_path := "c/a/b"; AzurePath.container := "c";
                 AzurePath.path_to_file := "a/b";
                 AzurePath.path_to_file_parts := ["a"; "b"] |} eq_refl)
    as (Htrail & Hc & _).
  split; [exact Htrail | exact Hc].
Defined.

Lemma has_parent_path (a : AzurePath.t) :
  (AzurePath.has_parent a = true <-> AzurePath.path_to_file a <> "")
  /\ (AzurePath.has_parent a = false <-> AzurePath.path_to_file a = "").
Proof.
  unfold AzurePath.has_parent.
  destruct (AzurePath.path_to_file a); simpl; split; split; congruence.
Qed.

(** X16.  On addresses that come out of [FromString], [operator==] is
    plain equality: two parsed addresses it holds equal agree in every
    field, the full path and the parts included. *)
Theorem parsed_eqb_is_equality (s1 s2 : string) (a b : AzurePath.t) :
  AzurePath.FromString s1 = Ok a ->
  AzurePath.FromString s2 = Ok b ->
  (AzurePath.eqb a b = true <-> a = b).
Proof.
  intros Ha Hb. split.
  2:{ intros ->. apply AzurePath_eqb_spec. auto. }
  intros Heq. apply AzurePath_eqb_spec in Heq. destruct Heq as [Hc Hp].
  destruct (FromString_shape s1 a Ha) as (_ & _ & Hbare_a & Hfile_a).
  destruct (FromString_shape s2 b Hb) as (_ & _ & Hbare_b & Hfile_b).
  destruct (AzurePath.has_parent a) eqn:Epa.
  - assert (Epb : AzurePath.has_parent b = true).
    { apply has_parent_path. rewrite <- Hp. now apply has_parent_path. }
    destruct (Hfile_a eq_refl) as (_ & Hfa & Hsa & _).
    destruct (Hfile_b Epb) as (_ & Hfb & Hsb & _).
    destruct a, b. simpl in *. congruence.
  - assert (Epb : AzurePath.has_parent b = false).
    { apply has_parent_path. rewrite <- Hp. now apply has_parent_path. }
    destruct (Hbare_a eq_refl) as (Hfa & _ & Hsa).
    destruct (Hbare_b Epb) as (Hfb & _ & Hsb).
    destruct a, b. simpl in *. congruence.
Qed.

Lemma parsed_eqb_is_equality_witness :
  AzurePath.eqb
    {| AzurePath.full_path := "c/a"; AzurePath.container := "c";
       AzurePath.path_to_file := "a"; AzurePath.path_to_file_parts := ["a"] |}
    {| AzurePath.full_path := "c/a"; AzurePath.container := "c";
       AzurePath.path_to_file := "a"; AzurePath.path_to_file_parts := ["a"] |}
  = true.
Proof.
  apply (proj2 (parsed_eqb_is_equality "c/a" "c/a/" _ _ eq_refl eq_refl)).
  reflexivity.
Defined.

(** X17.  [FromString] fails with Invalid and nothing else: whatever the
    string, an error it returns is of the invalid-argument kind. *)
Theorem FromString_fails_with_Invalid (s : string) (e : Status) :
  AzurePath.FromString s = Err e -> exists msg, e = Invalid msg.
Proof.
  unfold AzurePath.FromString.
  destruct (internal.IsLikelyUri s); [intros H; injection H as <-; eauto|].
  destruct (find_first_of _ internal.kSep) as [[|i]|];
    [intros H; injection H as <-; eauto | | discriminate].
  unfold return_not_ok, AzurePath.Validate.
  cbn [AzurePath.path_to_file_parts AzurePath.full_path].
  destruct (internal.ValidateAbstractPathParts _); cbn [ok negb]; cbv iota;
    try discriminate; intros H; injection H as <-; eauto.
Qed.

Lemma FromString_fails_with_Invalid_witness :
  exists msg, Invalid "Empty path component in path c/a//b" = Invalid msg.
Proof.
  apply (FromString_fails_with_Invalid "c/a//b"). reflexivity.
Defined.

Lemma RemoveTrailingSlash_separators (n : nat) :
  internal.RemoveTrailingSlash (string_of_list_ascii (repeat internal.kSep n)) = "".
Proof. induction n as [|n IH]; simpl; [reflexivity | now rewrite IH]. Qed.

Lemma RemoveTrailingSlash_head (c : ascii) (t : string) :
  internal.RemoveTrailingSlash (String c t) = ""
  \/ exists kept, internal.RemoveTrailingSlash (String c t) = String c kept.
Proof.
  simpl. destruct (internal.RemoveTrailingSlash t).
  - destruct (Ascii.eqb c internal.kSep); eauto.
  - eauto.
Qed.

(** X18.  A string made of separators only, the empty string among them,
    parses to the empty address; every other string that starts with a
    separator is refused with Invalid, the message quoting the string as
    given. *)
Theorem FromString_leading_separator :
  (forall n : nat,
      exists a,
        AzurePath.FromString (string_of_list_ascii (repeat internal.kSep n)) = Ok a
        /\ AzurePath.empty a = true
        /\ AzurePath.full_path a = "")
  /\ (forall t : string,
         internal.RemoveTrailingSlash (String internal.kSep t) <> "" ->
         AzurePath.FromString (String internal.kSep t)
         = Err (Invalid ("Path cannot start with a separator ('"
                           ++ String internal.kSep t ++ "')"))).
Proof.
  split.
  - intros n. unfold AzurePath.FromString.
    rewrite <- IsLikelyUri_RemoveTrailingSlash, RemoveTrailingSlash_separators.
    simpl. eauto.
  - intros t Hrest. unfold AzurePath.FromString.
    change (internal.IsLikelyUri (String internal.kSep t)) with false. cbv iota.
    destruct (RemoveTrailingSlash_head internal.kSep t) as [H | [kept H]];
      [contradiction|].
    rewrite H. reflexivity.
Qed.

Lemma FromString_leading_separator_witness :
  AzurePath.FromString "/a/b"
  = Err (Invalid "Path cannot start with a separator ('/a/b')").
Proof.
  apply (proj2 FromString_leading_separator "a/b"). discriminate.
Defined.

(** ** AzurePath: parents *)

Lemma scheme_tail_before_sep (c x : string) :
  internal.scheme_tail (c ++ String internal.kSep x) = internal.scheme_tail c.
Proof.
  induction c as [|a c IH]; simpl; [reflexivity|].
  destruct (Ascii.eqb a ":"); [reflexivity|].
  destruct (internal.is_scheme_char a); [exact IH | reflexivity].
Qed.

Lemma IsLikelyUri_before_sep (c x : string) :
  internal.IsLikelyUri (c ++ String internal.kSep x) = internal.IsLikelyUri c.
Proof.
  destruct c as [|a c]; simpl; [reflexivity|].
  now rewrite scheme_tail_before_sep.
Qed.

Lemma FromString_not_uri (s : string) (a : AzurePath.t) :
  AzurePath.FromString s = Ok a ->
  internal.IsLikelyUri (AzurePath.full_path a) = false.
Proof.
  intros Hparse. rewrite (FromString_full_path s a Hparse),
    IsLikelyUri_RemoveTrailingSlash.
  revert Hparse. unfold AzurePath.FromString.
  now destruct (internal.IsLikelyUri s).
Qed.

Lemma Validate_nonempty (parts : list string) :
  internal.ValidateAbstractPathParts parts = OK -> Forall (fun p => p <> "") parts.
Proof.
  induction parts as [|p rest IH]; simpl; [constructor|].
  destruct p as [|c p]; [discriminate|]. simpl.
  destruct (internal.reserved_part (String c p)); [discriminate|].
  intros H. constructor; [discriminate | auto].
Qed.

Lemma Validate_removelast (parts : list string) :
  internal.ValidateAbstractPathParts parts = OK ->
  internal.ValidateAbstractPathParts (removelast parts) = OK.
Proof.
  induction parts as [|p rest IH]; [easy|].
  intros H. simpl in H.
  destruct (str_empty p) eqn:Ep; [discriminate|].
  destruct (internal.reserved_part p) eqn:Er; [discriminate|].
  destruct rest as [|q rest]; [reflexivity|].
  change (removelast (p :: q :: rest)) with (p :: removelast (q :: rest)).
  simpl. rewrite Ep, Er. now apply IH.
Qed.

Lemma split_on_sep_sep_free (s : string) :
  Forall (fun p => find_first_of p internal.kSep = None) (internal.split_on_sep s).
Proof.
  induction s as [|c s IH]; simpl; [repeat constructor|].
  destruct (Ascii.eqb c internal.kSep) eqn:Ec.
  - constructor; [reflexivity | exact IH].
  - destruct (internal.split_on_sep s) as [|p ps]; [repeat constructor; simpl; now rewrite Ec|].
    inversion IH as [|? ? Hp Hps]. subst.
    constructor; [|exact Hps]. simpl. now rewrite Ec, Hp.
Qed.

Lemma Forall_removelast {A} (P : A -> Prop) (l : list A) :
  Forall P l -> Forall P (removelast l).
Proof.
  induction 1 as [|x l Hx Hl IH]; [constructor|].
  destruct l; [constructor|].
  change (removelast (x :: a :: l)) with (x :: removelast (a :: l)).
  now constructor.
Qed.

Lemma split_on_sep_concat (parts : list string) :
  parts <> [] ->
  Forall (fun p => find_first_of p internal.kSep = None) parts ->
  internal.split_on_sep (String.concat sep parts) = parts.
Proof.
  induction parts as [|p rest IH]; [congruence|]. intros _ Hall.
  inversion Hall as [|? ? Hp Hrest]. subst.
  destruct rest as [|q rest].
  - simpl. now apply split_on_sep_no_sep.
  - change (String.concat sep (p :: q :: rest))
      with (p ++ String internal.kSep (String.concat sep (q :: rest))).
    rewrite (split_on_sep_append p _ Hp). f_equal.
    apply IH; [discriminate | exact Hrest].
Qed.

Lemma back_append (x y : string) :
  y <> "" -> internal.back (x ++ y) = internal.back y.
Proof.
  intros Hy. induction x as [|a x IH]; simpl; [reflexivity|].
  destruct (x ++ y) eqn:E; [|exact IH].
  destruct x; simpl in E; congruence.
Qed.

Lemma back_sep_free (p : string) :
  find_first_of p internal.kSep = None -> internal.back p <> Some internal.kSep.
Proof.
  induction p as [|c p IH]; simpl; [discriminate|].
  destruct (Ascii.eqb c internal.kSep) eqn:Ec; [discriminate|].
  destruct (find_first_of p internal.kSep); [discriminate|]. intros _.
  destruct p; [|now apply IH].
  apply Ascii.eqb_neq in Ec. congruence.
Qed.

Lemma concat_nonempty (p : string) (rest : list string) :
  p <> "" -> String.concat sep (p :: rest) <> "".
Proof.
  intros Hp. destruct rest; simpl; [exact Hp|].
  destruct p; [congruence | discriminate].
Qed.

Lemma back_concat (parts : list string) :
  parts <> [] -> Forall good_part parts ->
  internal.back (String.concat sep parts) <> Some internal.kSep.
Proof.
  induction parts as [|p rest IH]; [congruence|]. intros _ Hall.
  inversion Hall as [|? ? [Hp Hfree] Hrest]. subst.
  destruct rest as [|q rest].
  - simpl. now apply back_sep_free.
  - change (String.concat sep (p :: q :: rest))
      with (p ++ String internal.kSep (String.concat sep (q :: rest))).
    inversion Hrest as [|? ? [Hq _] _]. subst.
    rewrite back_append by discriminate.
    change (String internal.kSep (String.concat sep (q :: rest)))
      with (sep ++ String.concat sep (q :: rest)).
    rewrite back_append by now apply concat_nonempty.
    apply IH; [discriminate | exact Hrest].
Qed.

Lemma RemoveTrailingSlash_fixed (t : string) :
  internal.back t <> Some internal.kSep -> internal.RemoveTrailingSlash t = t.
Proof.
  induction t as [|a r IH]; [reflexivity|].
  destruct r as [|d r'].
  - simpl. intros H. destruct (Ascii.eqb a internal.kSep) eqn:Ea; [|reflexivity].
    apply Ascii.eqb_eq in Ea. congruence.
  - intros H.
    change (internal.RemoveTrailingSlash (String a (String d r')))
      with (match internal.RemoveTrailingSlash (String d r') with
            | EmptyString =>
                if Ascii.eqb a internal.kSep then EmptyString else String a EmptyString
            | k => String a k
            end).
    rewrite IH by exact H. reflexivity.
Qed.

(** X19.  Parsed addresses are closed under [parent]: the parent of a
    parsed address that has one is again what [FromString] returns for the
    parent's own full path, it keeps the container, and it has one part
    fewer. *)
Theorem parent_is_parsed (s : string) (a : AzurePath.t) :
  AzurePath.FromString s = Ok a ->
  AzurePath.has_parent a = true ->
  AzurePath.FromString (AzurePath.full_path (AzurePath.parent a))
  = Ok (AzurePath.parent a)
  /\ AzurePath.container (AzurePath.parent a) = AzurePath.container a
  /\ S (List.length (AzurePath.path_to_file_parts (AzurePath.parent a)))
     = List.length (AzurePath.path_to_file_parts a).
Proof.
  intros Hparse Hhas.
  destruct (FromString_shape s a Hparse) as (_ & Hcfree & _ & Hfile).
  destruct (Hfile Hhas) as (Hc & Hfull & Hsplit & Hvalid).
  pose proof (FromString_not_uri s a Hparse) as Huri.
  rewrite Hfull in Huri.
  change (sep ++ AzurePath.path_to_file a)
    with (String internal.kSep (AzurePath.path_to_file a)) in Huri.
  rewrite IsLikelyUri_before_sep in Huri.
  assert (Hpath : AzurePath.path_to_file a <> "") by now apply has_parent_path.
  assert (Hparts : AzurePath.path_to_file_parts a
                   = internal.split_on_sep (AzurePath.path_to_file a)).
  { rewrite Hsplit. unfold internal.SplitAbstractPath.
    now destruct (AzurePath.path_to_file a). }
  assert (Hfree : Forall (fun p => find_first_of p internal.kSep = None)
                    (AzurePath.path_to_file_parts a))
    by (rewrite Hparts; apply split_on_sep_sep_free).
  assert (Hne : AzurePath.path_to_file_parts a <> []).
  { rewrite Hparts. destruct (AzurePath.path_to_file a) as [|c p]; [congruence|].
    simpl. destruct (Ascii.eqb c internal.kSep); [discriminate|].
    destruct (internal.split_on_sep p); discriminate. }
  split; [|split; [reflexivity|]].
  2:{ unfold AzurePath.parent. cbn [AzurePath.path_to_file_parts].
      rewrite (app_removelast_last "" Hne) at 2.
      rewrite length_app. simpl. lia. }
  unfold AzurePath.parent. cbn [AzurePath.full_path].
  unfold internal.JoinAbstractPath. fold sep.
  set (parts' := removelast (AzurePath.path_to_file_parts a)).
  assert (Hvalid' : internal.ValidateAbstractPathParts parts' = OK)
    by now apply Validate_removelast.
  assert (Hfree' : Forall (fun p => find_first_of p internal.kSep = None) parts')
    by now apply Forall_removelast.
  set (c := AzurePath.container a) in *.
  destruct parts' as [|p rest] eqn:Eparts.
  - simpl. unfold AzurePath.FromString.
    rewrite Huri, (RemoveTrailingSlash_no_sep c Hc Hcfree), Hcfree. reflexivity.
  - assert (Hp : p <> "").
    { pose proof (Validate_nonempty _ Hvalid') as Hn. now inversion Hn. }
    assert (Hjoined : String.concat sep (p :: rest) <> "")
      by now apply concat_nonempty.
    replace (str_empty (String.concat sep (p :: rest))) with false
      by (symmetry; now apply str_empty_false).
    set (joined := String.concat sep (p :: rest)) in *.
    cbv iota.
    change (c ++ sep ++ joined) with (c ++ String internal.kSep joined).
    unfold AzurePath.FromString.
    rewrite IsLikelyUri_before_sep, Huri.
    assert (Hgood : Forall good_part (p :: rest)).
    { pose proof (Validate_nonempty _ Hvalid') as Hn.
      clear - Hn Hfree'. revert Hn Hfree'.
      generalize (p :: rest) as l. induction l as [|x l IH]; intros Hn Hf;
        [constructor|].
      inversion Hn; inversion Hf; subst. constructor; [split; auto | auto]. }
    rewrite RemoveTrailingSlash_fixed.
    2:{ rewrite back_append by discriminate.
        change (String internal.kSep joined) with (sep ++ joined).
        rewrite back_append by exact Hjoined.
        apply back_concat; [discriminate | exact Hgood]. }
    rewrite (find_first_of_append c joined _ Hcfree).
    destruct (String.length c) as [|n] eqn:Elen;
      [destruct c; [congruence | discriminate]|].
    rewrite <- Elen, substr_prefix, substr_from_suffix.
    unfold internal.SplitAbstractPath.
    replace (str_empty joined) with false by (symmetry; now apply str_empty_false).
    unfold joined. rewrite split_on_sep_concat by (auto; discriminate).
    unfold AzurePath.Validate. cbn [AzurePath.path_to_file_parts].
    rewrite Hvalid'. reflexivity.
Qed.

Lemma parent_is_parsed_witness :
  AzurePath.FromString "testcontainer/testdir"
  = Ok {| AzurePath.full_path := "testcontainer/testdir";
          AzurePath.container := "testcontainer";
          AzurePath.path_to_file := "testdir";
          AzurePath.path_to_file_parts := ["testdir"] |}.
Proof.
  apply (proj1 (parent_is_parsed "testcontainer/testdir/testfile.txt"
                  {| AzurePath.full_path := "testcontainer/testdir/testfile.txt";
                     AzurePath.container := "testcontainer";
                     AzurePath.path_to_file := "testdir/testfile.txt";
                     AzurePath.path_to_file_parts := ["testdir"; "testfile.txt"] |}
                  eq_refl eq_refl)).
Defined.

(** ** Opening: the [FileInfo] overload and the handle handed out *)

(** X20.  The [FileInfo] overload first refuses a path that ends in a
    separator, with not-a-file for the path as recorded, whatever the
    recorded type.  For a path that does not end in a separator the
    recorded type decides before the path is parsed: type NotFound gives
    path-not-found and type Directory not-a-file, both for the path as
    recorded; type File or Unknown with no recorded size opens exactly as
    the string overload does.  None of the refusals sends anything to the
    store. *)
Theorem OpenInputFile_info_by_type
    (impl : Impl.t) (net : list StoreCall) (info : FileInfo) :
  (internal.HasTrailingSlash (info_path info) = true ->
   Impl.OpenInputFile_info info impl net
   = Some (Err (NotAFileError (info_path info)), impl, net))
  /\ (internal.HasTrailingSlash (info_path info) = false ->
      (info_type info = FileType_NotFound ->
       Impl.OpenInputFile_info info impl net
       = Some (Err (PathNotFoundError (info_path info)), impl, net))
      /\ (info_type info = FileType_Directory ->
          Impl.OpenInputFile_info info impl net
          = Some (Err (NotAFileError (info_path info)), impl, net))
      /\ (info_type info = FileType_File \/ info_type info = FileType_Unknown ->
          info_size info = kNoSize ->
          Impl.OpenInputFile_info info impl net
          = Impl.OpenInputFile (info_path info) impl net)).
Proof.
  split.
  - intros Hslash. apply (proj2 (AssertNoTrailingSlash_spec _)) in Hslash.
    unfold Impl.OpenInputFile_info, bind, check. now rewrite Hslash.
  - intros Hslash. apply (proj1 (AssertNoTrailingSlash_spec _)) in Hslash.
    unfold Impl.OpenInputFile_info, Impl.OpenInputFile.
    unfold bind at 1 5. unfold check at 1 3. rewrite Hslash.
    split; [|split].
    + intros ->. reflexivity.
    + intros ->. reflexivity.
    + intros [-> | ->] ->; reflexivity.
Qed.

Lemma OpenInputFile_info_by_type_witness :
  Impl.OpenInputFile_info
    {| info_path := "https://x/y"; info_type := FileType_NotFound; info_size := kNoSize |}
    hello_impl []
  = Some (Err (PathNotFoundError "https://x/y"), hello_impl, [])
  /\ Impl.OpenInputFile_info
       {| info_path := "dir/"; info_type := FileType_NotFound; info_size := kNoSize |}
       hello_impl []
     = Some (Err (NotAFileError "dir/"), hello_impl, [])
  /\ Impl.OpenInputFile_info
       {| info_path := "sample-container/sample-blob.txt";
          info_type := FileType_Unknown; info_size := kNoSize |}
       hello_impl []
     = Impl.OpenInputFile "sample-container/sample-blob.txt" hello_impl [].
Proof.
  split; [|split].
  - apply (proj1 (proj2 (OpenInputFile_info_by_type hello_impl []
                           {| info_path := "https://x/y";
                              info_type := FileType_NotFound;
                              info_size := kNoSize |}) eq_refl)).
    reflexivity.
  - apply (proj1 (OpenInputFile_info_by_type hello_impl []
                    {| info_path := "dir/"; info_type := FileType_NotFound;
                       info_size := kNoSize |})).
    reflexivity.
  - apply (proj2 (proj2 (proj2 (OpenInputFile_info_by_type hello_impl []
                           {| info_path := "sample-container/sample-blob.txt";
                              info_type := FileType_Unknown; info_size := kNoSize |})
                           eq_refl)));
      [right; reflexivity | reflexivity].
Defined.

(** X21.  Given a [FileInfo] of type File or Unknown that records a size,
    not negative, for a path that does not end in a separator and parses to
    an address with container and file part, opening sends nothing to the
    store at all: the handle is built on the blob client for that container
    and path, open, cursor at 0, with the recorded size as
    [content_length_] and no metadata. *)
Theorem OpenInputFile_info_known_size
    (impl : Impl.t) (net : list StoreCall) (info : FileInfo)
    (path : AzurePath.t) (service : BlobServiceClient) :
  internal.HasTrailingSlash (info_path info) = false ->
  info_type info = FileType_File \/ info_type info = FileType_Unknown ->
  0 <= info_size info ->
  AzurePath.FromString (info_path info) = Ok path ->
  AzurePath.container path <> "" ->
  AzurePath.path_to_file path <> "" ->
  Impl.service_client_ impl = Some service ->
  Impl.OpenInputFile_info info impl net
  = Some (Ok {| ObjectInputFile.blob_client_ :=
                  Some (GetBlobClient
                          (GetBlobContainerClient service (AzurePath.container path))
                          (AzurePath.path_to_file path));
                ObjectInputFile.path_ := path;
                ObjectInputFile.closed_ := false;
                ObjectInputFile.pos_ := 0;
                ObjectInputFile.content_length_ := info_size info;
                ObjectInputFile.metadata_ := None |},
          impl, net).
Proof.
  intros Hslash Htype Hsize Hparse Hc Hp Hservice.
  apply (proj1 (AssertNoTrailingSlash_spec _)) in Hslash.
  destruct (ValidateFilePath_spec path) as (_ & _ & Hok).
  unfold Impl.OpenInputFile_info.
  unfold bind at 1. unfold check at 1. rewrite Hslash.
  replace (Impl.FileType_eqb (info_type info) FileType_NotFound) with false
    by (destruct Htype as [-> | ->]; reflexivity).
  replace (negb (Impl.FileType_eqb (info_type info) FileType_File)
           && negb (Impl.FileType_eqb (info_type info) FileType_Unknown))
    with false by (destruct Htype as [-> | ->]; reflexivity).
  unfold bind, lift, check, Impl.make_blob_client, Impl.init_handle.
  rewrite Hparse, (Hok Hc Hp), Hservice.
  unfold ObjectInputFile.Init, ObjectInputFile.make. simpl.
  destruct (Z.eqb_spec (info_size info) kNoSize) as [Hk|Hk];
    [unfold kNoSize in Hk; lia | reflexivity].
Qed.

Lemma OpenInputFile_info_known_size_witness :
  Impl.OpenInputFile_info
    {| info_path := "sample-container/sample-blob.txt";
       info_type := FileType_File; info_size := 12 |} hello_impl []
  = Some (Ok (ObjectInputFile.make (hello_client 100) hello_path 12), hello_impl, []).
Proof.
  assert (Hsize : 0 <= 12) by lia.
  apply (OpenInputFile_info_known_size hello_impl []
           {| info_path := "sample-container/sample-blob.txt";
              info_type := FileType_File; info_size := 12 |}
           hello_path (service_of (fun _ _ => hello_client 100)));
    solve [reflexivity | discriminate | left; reflexivity | exact Hsize].
Defined.

(** X22.  A handle [OpenInputFile] hands out is fully initialised: the
    string parsed to an address with both components, exactly one request
    went out, the property fetch for the blob client of that container and
    path, and the handle holds that client and address, is open with its
    cursor at 0, and has the size and metadata the store answered.  The
    facade itself is never changed by opening, whatever the outcome. *)
Theorem OpenInputFile_gives_initialised_handle
    (impl impl' : Impl.t) (net net' : list StoreCall) (s : string) :
  (forall r, Impl.OpenInputFile s impl net = Some (r, impl', net') -> impl' = impl)
  /\ (forall f,
         Impl.OpenInputFile s impl net = Some (Ok f, impl', net') ->
         exists path service properties,
           AzurePath.FromString s = Ok path
           /\ AzurePath.container path <> ""
           /\ AzurePath.path_to_file path <> ""
           /\ Impl.service_client_ impl = Some service
           /\ let client :=
                GetBlobClient
                  (GetBlobContainerClient service (AzurePath.container path))
                  (AzurePath.path_to_file path) in
              GetProperties client net = inr properties
              /\ net' = (net ++ [GetPropertiesCall (GetUrl client)])%list
              /\ f = {| ObjectInputFile.blob_client_ := Some client;
                        ObjectInputFile.path_ := path;
                        ObjectInputFile.closed_ := false;
                        ObjectInputFile.pos_ := 0;
                        ObjectInputFile.content_length_ := BlobSize properties;
                        ObjectInputFile.metadata_ := Some (Metadata properties) |}).
Proof.
  assert (Hrun : forall r,
             Impl.OpenInputFile s impl net = Some (r, impl', net') ->
             impl' = impl
             /\ forall f, r = Ok f ->
                  exists path service properties,
                    AzurePath.FromString s = Ok path
                    /\ AzurePath.container path <> ""
                    /\ AzurePath.path_to_file path <> ""
                    /\ Impl.service_client_ impl = Some service
                    /\ let client :=
                         GetBlobClient
                           (GetBlobContainerClient service (AzurePath.container path))
                           (AzurePath.path_to_file path) in
                       GetProperties client net = inr properties
                       /\ net' = (net ++ [GetPropertiesCall (GetUrl client)])%list
                       /\ f = {| ObjectInputFile.blob_client_ := Some client;
                                 ObjectInputFile.path_ := path;
                                 ObjectInputFile.closed_ := false;
                                 ObjectInputFile.pos_ := 0;
                                 ObjectInputFile.content_length_ := BlobSize properties;
                                 ObjectInputFile.metadata_ :=
                                   Some (Metadata properties) |}).
  { intros r. unfold Impl.OpenInputFile. unfold bind at 1. unfold check at 1.
    destruct (internal.AssertNoTrailingSlash s);
      try (intros H; inversion H; split; [reflexivity | discriminate]).
    unfold bind at 1. unfold lift.
    destruct (AzurePath.FromString s) as [path|e];
      [|intros H; inversion H; split; [reflexivity | discriminate]].
    unfold bind at 1. unfold check.
    destruct (ValidateFilePath_spec path) as (Hnf & Hnaf & _).
    destruct (string_dec (AzurePath.container path) "") as [Hc|Hc].
    { rewrite (Hnf Hc). intros H. inversion H. split; [reflexivity | discriminate]. }
    destruct (string_dec (AzurePath.path_to_file path) "") as [Hp|Hp].
    { rewrite (Hnaf Hc Hp). intros H. inversion H.
      split; [reflexivity | discriminate]. }
    destruct (ValidateFilePath path); try (intros H; inversion H;
      split; [reflexivity | discriminate]).
    unfold bind, Impl.make_blob_client, Impl.init_handle.
    destruct (Impl.service_client_ impl) as [service|]; [|discriminate].
    unfold ObjectInputFile.Init, ObjectInputFile.make. simpl.
    destruct (GetProperties _ net) as [exception|properties] eqn:Hfetch.
    - destruct (StatusCode exception =? HttpStatusCode_NotFound);
        intros H; inversion H; split; [reflexivity | discriminate
                                      | reflexivity | discriminate].
    - intros H. inversion H. split; [reflexivity|].
      intros f Hf. injection Hf as <-.
      exists path, service, properties.
      rewrite GetObjectMetadata_verbatim. repeat split; auto. }
  split.
  - intros r H. exact (proj1 (Hrun r H)).
  - intros f H. exact (proj2 (Hrun (Ok f) H) f eq_refl).
Qed.

Lemma OpenInputFile_gives_initialised_handle_witness :
  exists path service properties,
    AzurePath.FromString "sample-container/sample-blob.txt" = Ok path
    /\ AzurePath.container path <> ""
    /\ AzurePath.path_to_file path <> ""
    /\ Impl.service_client_ hello_impl = Some service
    /\ let client :=
         GetBlobClient
           (GetBlobContainerClient service (AzurePath.container path))
           (AzurePath.path_to_file path) in
       GetProperties client [] = inr properties
       /\ [GetPropertiesCall (GetUrl (hello_client 100))]
          = ([] ++ [GetPropertiesCall (GetUrl client)])%list
       /\ hello_file 100
          = {| ObjectInputFile.blob_client_ := Some client;
               ObjectInputFile.path_ := path;
               ObjectInputFile.closed_ := false;
               ObjectInputFile.pos_ := 0;
               ObjectInputFile.content_length_ := BlobSize properties;
               ObjectInputFile.metadata_ := Some (Metadata properties) |}.
Proof.
  apply (proj2 (OpenInputFile_gives_initialised_handle hello_impl hello_impl []
                  [GetPropertiesCall (GetUrl (hello_client 100))]
                  "sample-container/sample-blob.txt")
           (hello_file 100)).
  reflexivity.
Defined.

(** X23.  The positional reads never touch the handle: whatever
    [ReadAt], of either kind, returns, a value or an error, the cursor and
    every other member are as before, and at most one request was added to
    those sent. *)
Theorem positional_reads_leave_handle
    (f f' : ObjectInputFile.t) (net net' : list StoreCall) (position nbytes : Z) :
  (forall out r,
      ObjectInputFile.ReadAt position nbytes out f net = Some (r, f', net') ->
      f' = f /\ sent_at_most_one net net')
  /\ (forall r,
         ObjectInputFile.ReadAt_buffer position nbytes f net = Some (r, f', net') ->
         f' = f /\ sent_at_most_one net net').
Proof.
  split.
  - intros out r. apply ReadAt_footprint.
  - intros r. apply ReadAt_buffer_footprint.
Qed.

Lemma positional_reads_leave_handle_witness :
  ObjectInputFile.set_pos_ 7 (hello_file 3) = ObjectInputFile.set_pos_ 7 (hello_file 3)
  /\ sent_at_most_one [] [DownloadToCall (GetUrl (hello_client 3)) 2 4].
Proof.
  apply (proj1 (positional_reads_leave_handle
                  (ObjectInputFile.set_pos_ 7 (hello_file 3))
                  (ObjectInputFile.set_pos_ 7 (hello_file 3))
                  [] [DownloadToCall (GetUrl (hello_client 3)) 2 4] 2 4)
           [] (Ok (3, list_of_string "llo"))).
  reflexivity.
Defined.
